(** * Domain Manager: the monitoring-and-alerting engine

    A shallow embedding of the Node.js services
      - [server/services/monitoring.js]   (the four sweeps, reachability probe),
      - [server/services/notificationService.js] (the alert dispatchers),
      - [server/services/sslService.js]   (the certificate prober),
    and of the alert-rule validation in [server/routes/domains.js].

    Conventions of the model
      - a JavaScript [Date] is its number of milliseconds since the epoch, a [Z];
      - a PostgreSQL [DATE] is a calendar day number (days since the epoch);
        the Node process and the database session both run in UTC, so a
        [DATE] column read by the driver is the [Date] of that day's UTC
        midnight and [CURRENT_DATE] is the UTC day of the clock;
      - asynchronous functions are modelled by their settled promise:
        [Resolved v] or [Rejected e];
      - [clock] is the instant at which a piece of code runs; no code writes
        it, and it moves only through [elapse], the time spent awaiting;
      - code that mutates the database, writes to the console or calls a
        transport runs in the monad [M], a state monad over [World] whose
        state survives a thrown exception, as it does in JavaScript;
      - everything the engine does not control (SMTP, Twilio, the network,
        storage faults) is an oracle: a field of [Env] or of [World]. *)

From Stdlib Require Import ZArith List String Ascii Bool Lia.
Import ListNotations.

Set Warnings "-register-all".

Local Open Scope string_scope.
Local Open Scope list_scope.
Local Open Scope Z_scope.

(* ===================================================================== *)
(** * JavaScript values and errors *)
(* ===================================================================== *)

Module JS.

(** The fragment of JavaScript values the engine passes around. *)
Inductive value : Type :=
| Undefined
| Null
| Bool (b : bool)
| Num (n : Z)
| Str (s : string)
| Date (ms : Z)
| Obj (fields : list (string * value)).

(** Thrown values.  [TransportError] is an error object created by the
    runtime's network layer (its [code], such as ECONNREFUSED); [Error]
    is [new Error(msg)] built by the program itself; [TypeError] is the
    runtime's own. *)
Inductive error : Type :=
| Error (msg : string)
| TypeError (msg : string)
| TransportError (code : string)
| StorageError (msg : string).

(** [error.message] *)
Definition message (e : error) : string :=
  match e with
  | Error m | TypeError m | TransportError m | StorageError m => m
  end.

(** ToBoolean *)
Definition truthy (v : value) : bool :=
  match v with
  | Undefined | Null => false
  | Bool b => b
  | Num n => negb (n =? 0)
  | Str s => negb (String.eqb s "")
  | Date _ | Obj _ => true
  end.

Fixpoint lookup (k : string) (fields : list (string * value)) : value :=
  match fields with
  | [] => Undefined
  | (k', v) :: rest => if String.eqb k k' then v else lookup k rest
  end.

(** Property read [v.k] for the ordinary property names used by the
    engine (none of which is defined on the prototypes of primitives):
    a [TypeError] on [undefined] and [null], [undefined] on the other
    primitives, the field on objects. *)
Definition get (v : value) (k : string) : value + error :=
  match v with
  | Undefined => inr (TypeError "Cannot read properties of undefined")
  | Null => inr (TypeError "Cannot read properties of null")
  | Bool _ | Num _ | Str _ | Date _ => inl Undefined
  | Obj fields => inl (lookup k fields)
  end.

(** [a || b] *)
Definition or (a b : value) : value := if truthy a then a else b.

Definition of_option (o : option string) : value :=
  match o with Some s => Str s | None => Null end.

Definition of_date (o : option Z) : value :=
  match o with Some ms => Date ms | None => Null end.

(** [o[k] = v]: the driver builds a row object column by column, so a
    later column of the same name replaces an earlier one. *)
Fixpoint set (k : string) (v : value) (fields : list (string * value))
  : list (string * value) :=
  match fields with
  | [] => [(k, v)]
  | (k', v') :: rest =>
      if String.eqb k k' then (k, v) :: rest else (k', v') :: set k v rest
  end.

Definition row_object (columns : list (string * value)) : value :=
  Obj (fold_left (fun o kv => set (fst kv) (snd kv) o) columns []).

End JS.

(** The settled state of a promise. *)
Inductive Promise (A : Type) : Type :=
| Resolved (v : A)
| Rejected (e : JS.error).
Arguments Resolved {A} v.
Arguments Rejected {A} e.

(* ===================================================================== *)
(** * Expiry evaluator *)
(* ===================================================================== *)

(** [1000 * 60 * 60 * 24] *)
Definition MS_PER_DAY : Z := 1000 * 60 * 60 * 24.

(** [Math.ceil(a / b)] on integers, for a positive divisor.  The source
    divides doubles; for millisecond differences of real dates the
    quotient is far from the precision limit, and the rounded quotient has
    the same ceiling as the exact one. *)
Definition Math_ceil_div (a b : Z) : Z := - ((- a) / b).

(** [Math.ceil((new Date(target) - new Date()) / (1000 * 60 * 60 * 24))],
    the expression every sweep uses (monitoring.js lines 59, 134, 244,
    282; sslService.js line 137). *)
Definition daysUntilExpiry (target now : Z) : Z :=
  Math_ceil_div (target - now) MS_PER_DAY.

(** A calendar day as the [Date] of its UTC midnight
    ([new Date('YYYY-MM-DD')], or a [DATE] column read in UTC). *)
Definition dateToMs (day : Z) : Z := day * MS_PER_DAY.

(** The UTC calendar day of an instant
    ([toISOString().split('T')[0]], [CURRENT_DATE]). *)
Definition utcDate (t : Z) : Z := t / MS_PER_DAY.

(* ===================================================================== *)
(** * Certificate prober (sslService.js) *)
(* ===================================================================== *)

(** What [getPeerCertificate()] returns, with the two date strings already
    parsed; a missing or empty field is [None]. *)
Record PeerCertificate : Type := {
  valid_from : option Z;
  valid_to : option Z;
  issuer_CN : option string;
  issuer_O : option string
}.

(** The object the prober resolves with. *)
Record SSLInfo : Type := {
  issuer : string;
  validFrom : Z;        (* calendar day *)
  validUntil : Z;       (* calendar day *)
  status : string
}.

(** [30 * 24 * 60 * 60 * 1000] *)
Definition THIRTY_DAYS_MS : Z := 30 * 24 * 60 * 60 * 1000.

(** The status computation inside the [https.request] callback
    (sslService.js lines 28-33). *)
Definition https_status (validUntil now : Z) : string :=
  if validUntil <? now then "expired"
  else if validUntil <? now + THIRTY_DAYS_MS then "expiring_soon"
  else "valid".

(** The status computation inside the [tls.connect] callback
    (sslService.js lines 86-91). *)
Definition tls_status (validUntil now : Z) : string :=
  if validUntil <? now then "expired"
  else if validUntil <? now + THIRTY_DAYS_MS then "expiring_soon"
  else "valid".

(** [cert.issuer?.CN || cert.issuer?.O || 'Unknown'] *)
Definition issuer_of (c : PeerCertificate) : string :=
  match JS.or (JS.or (JS.of_option (issuer_CN c)) (JS.of_option (issuer_O c)))
              (JS.Str "Unknown") with
  | JS.Str s => s
  | _ => "Unknown"
  end.

(** WHATWG scheme of a URL string: tabs and newlines are dropped, then an
    ASCII letter, then letters, digits, [+], [-] or [.], up to the first
    [:]; the scheme is lower-cased.  [None] when the string has no scheme;
    [new URL(s)] without a base then throws. *)
Definition is_alpha (c : ascii) : bool :=
  let n := nat_of_ascii c in
  ((65 <=? n) && (n <=? 90))%nat || ((97 <=? n) && (n <=? 122))%nat.

Definition is_scheme_char (c : ascii) : bool :=
  let n := nat_of_ascii c in
  is_alpha c || ((48 <=? n) && (n <=? 57))%nat
  || (n =? 43)%nat || (n =? 45)%nat || (n =? 46)%nat.

Definition to_lower (c : ascii) : ascii :=
  let n := nat_of_ascii c in
  if ((65 <=? n) && (n <=? 90))%nat then ascii_of_nat (n + 32) else c.

Definition is_tab_or_newline (c : ascii) : bool :=
  let n := nat_of_ascii c in
  (n =? 9)%nat || (n =? 10)%nat || (n =? 13)%nat.

Fixpoint strip_tab_newline (s : string) : string :=
  match s with
  | EmptyString => EmptyString
  | String c rest =>
      if is_tab_or_newline c then strip_tab_newline rest
      else String c (strip_tab_newline rest)
  end.

Fixpoint scheme_rest (s : string) : option string :=
  match s with
  | EmptyString => None
  | String c rest =>
      if (nat_of_ascii c =? 58)%nat then Some EmptyString
      else if is_scheme_char c then
             match scheme_rest rest with
             | Some r => Some (String (to_lower c) r)
             | None => None
             end
           else None
  end.

Definition url_scheme (s : string) : option string :=
  match strip_tab_newline s with
  | EmptyString => None
  | String c rest => if is_alpha c then scheme_rest (String c rest) else None
  end.

(** [domain.startsWith('http') ? domain : `https://${domain}`] *)
Definition with_protocol (domain : string) : string :=
  if String.prefix "http" domain then domain
  else String.append "https://" domain.

(** What the network does to one request of the prober. *)
Inductive HttpsEvent : Type :=
| HttpsResponse (cert : option PeerCertificate)
| HttpsError (e : JS.error)
| HttpsTimeout.

Inductive TlsEvent : Type :=
| TlsSecureConnect (cert : option PeerCertificate)
| TlsError (e : JS.error)
| TlsTimeout.

(** What the network does to the reachability probe's single GET. *)
Inductive GetEvent : Type :=
| GetResponse (statusCode : Z)
| GetError (e : JS.error)
| GetTimeout
| GetInvalid (e : JS.error).   (* the URL is rejected before any I/O *)

Inductive Protocol : Type := Http | Https.

Definition protocol_scheme (p : Protocol) : string :=
  match p with Http => "http" | Https => "https" end.

(** Outcome of a transport primitive: [None] is delivery, [Some e] the
    error it throws. *)
Definition TransportResult : Type := option JS.error.

(** The outside world. *)
Record Env : Type := {
  url_hostname : string -> option string;  (* [new URL(s).hostname]; [None]: throws *)
  https_request : string -> HttpsEvent;    (* by hostname *)
  tls_connect : string -> TlsEvent;        (* by hostname *)
  http_get : Protocol -> string -> GetEvent;
  smtp_send : JS.value -> TransportResult; (* by recipient *)
  twilio_send : JS.value -> TransportResult
}.

(** The callback of [https.request] (sslService.js lines 20-49):
    [cert && cert.valid_from && cert.valid_to] guards the success branch;
    the two dates are reported as ISO calendar days. *)
Definition https_callback (cert : option PeerCertificate) (now : Z)
  : Promise SSLInfo :=
  match cert with
  | Some c =>
      match valid_from c, valid_to c with
      | Some vf, Some vu =>
          Resolved {| issuer := issuer_of c;
                      validFrom := utcDate vf;
                      validUntil := utcDate vu;
                      status := https_status vu now |}
      | _, _ => Rejected (JS.Error "No valid certificate found")
      end
  | None => Rejected (JS.Error "No valid certificate found")
  end.

(** The callback of [tls.connect] (sslService.js lines 78-110), written
    out a second time in the source. *)
Definition tls_callback (cert : option PeerCertificate) (now : Z)
  : Promise SSLInfo :=
  match cert with
  | Some c =>
      match valid_from c, valid_to c with
      | Some vf, Some vu =>
          Resolved {| issuer := issuer_of c;
                      validFrom := utcDate vf;
                      validUntil := utcDate vu;
                      status := tls_status vu now |}
      | _, _ => Rejected (JS.Error "No valid certificate found")
      end
  | None => Rejected (JS.Error "No valid certificate found")
  end.

(** [checkWithTLS(hostname)] (sslService.js lines 71-121). *)
Definition checkWithTLS (env : Env) (hostname : string) (now : Z)
  : Promise SSLInfo :=
  match tls_connect env hostname with
  | TlsSecureConnect cert => tls_callback cert now
  | TlsError e => Rejected e                        (* reject(error) *)
  | TlsTimeout => Rejected (JS.Error "Connection timeout")
  end.

(** [checkSSLCertificate(domain)] (sslService.js lines 5-69).  The [try]
    block only sees what is thrown synchronously, that is by [new URL]:
    the promise is returned without [await], so its rejection goes to the
    caller and not to the [catch].  [Resolved None] is [null]. *)
Definition checkSSLCertificate (env : Env) (domain : string) (now : Z)
  : Promise (option SSLInfo) :=
  let domainUrl := with_protocol domain in
  match url_scheme domainUrl with
  | None => Resolved None                           (* catch: return null *)
  | Some _ =>
      match url_hostname env domainUrl with
      | None => Resolved None                       (* catch: return null *)
      | Some hostname =>
          let settle (p : Promise SSLInfo) : Promise (option SSLInfo) :=
            match p with
            | Resolved info => Resolved (Some info)
            | Rejected e => Rejected e
            end in
          match https_request env hostname with
          | HttpsResponse cert => settle (https_callback cert now)
          | HttpsError _ => settle (checkWithTLS env hostname now)
          | HttpsTimeout => Rejected (JS.Error "Request timeout")
          end
      end
  end.

(* ===================================================================== *)
(** * Reachability prober (monitoring.js, [checkDomainUptime]) *)
(* ===================================================================== *)

(** [protocol.get(url, ...)]: the client request constructor parses a
    string URL with [new URL] and checks its protocol against the module's
    own before any I/O; both checks throw synchronously. *)
Definition protocol_get (env : Env) (p : Protocol) (url : string) : GetEvent :=
  match url_scheme url with
  | None => GetInvalid (JS.TypeError "ERR_INVALID_URL")
  | Some sch =>
      if String.eqb sch (protocol_scheme p) then http_get env p url
      else GetInvalid (JS.TypeError "ERR_INVALID_PROTOCOL")
  end.

(** [checkDomainUptime(domainName)] (monitoring.js lines 204-225).  An
    exception thrown inside the promise executor rejects the promise. *)
Definition checkDomainUptime (env : Env) (domainName : string) : Promise bool :=
  let url := with_protocol domainName in
  let protocol := if String.prefix "https" url then Https else Http in
  match protocol_get env protocol url with
  | GetResponse statusCode =>
      Resolved ((200 <=? statusCode) && (statusCode <? 400))
  | GetError _ => Resolved false
  | GetTimeout => Resolved false
  | GetInvalid e => Rejected e
  end.

(* ===================================================================== *)
(** * Storage: the tables of config/database.js *)
(* ===================================================================== *)

Module users.
Record row : Type := {
  id : Z;
  email : string;                 (* NOT NULL *)
  first_name : option string;
  last_name : option string;
  phone : option string
}.
End users.

Module domains.
Record row : Type := {
  id : Z;
  user_id : Z;
  domain_name : string;
  registrar : option string;
  expiry_date : Z;                (* DATE NOT NULL: calendar day *)
  status : string                 (* 'active' by default *)
}.

Definition set_status (st : string) (d : row) : row :=
  {| id := id d; user_id := user_id d; domain_name := domain_name d;
     registrar := registrar d; expiry_date := expiry_date d; status := st |}.
End domains.

Module ssl_certificates.
Record row : Type := {
  id : Z;
  domain_id : Z;
  issuer : option string;
  valid_from : option Z;          (* DATE: calendar day *)
  valid_until : option Z;         (* DATE: calendar day *)
  status : string;
  last_checked : Z
}.
End ssl_certificates.

Module alerts.
Record row : Type := {
  id : Z;
  user_id : Z;
  domain_id : Z;
  type : string;
  email_enabled : bool;           (* DEFAULT true *)
  sms_enabled : bool;             (* DEFAULT false *)
  days_before_expiry : Z          (* DEFAULT 30 *)
}.
End alerts.

Module notification_logs.
Record row : Type := {
  user_id : Z;
  domain_id : Z;
  type : string;
  method : string;
  status : string;
  sent_at : Z                     (* TIMESTAMP: milliseconds *)
}.
End notification_logs.

(** One call of a transport wrapper ([sendEmailAlert] or [sendSMSAlert]). *)
Record Attempt : Type := {
  via : string;                     (* 'email' | 'sms' *)
  recipient : JS.value;             (* [to] *)
  about : JS.value                  (* the domain name in the text *)
}.

(** An element of the [results] array of a dispatcher. *)
Record ChannelOutcome : Type := {
  method : string;
  result : string;                  (* [status]: 'success' | 'failed' *)
  error : option string
}.

(** The state the engine reads and writes. *)
Record World : Type := {
  clock : Z;                                        (* [new Date()], CURRENT_TIMESTAMP *)
  tbl_users : list users.row;
  tbl_domains : list domains.row;
  tbl_ssl_certificates : list ssl_certificates.row;
  tbl_alerts : list alerts.row;
  tbl_notification_logs : list notification_logs.row;  (* oldest first *)
  console : list (string * JS.error);               (* [console.error], oldest first *)
  outbox : list Attempt;                            (* transport calls, oldest first *)
  db_faults : list bool                             (* one per query: [true] = it throws *)
}.

Definition with_domains (ds : list domains.row) (w : World) : World :=
  {| clock := clock w; tbl_users := tbl_users w; tbl_domains := ds;
     tbl_ssl_certificates := tbl_ssl_certificates w; tbl_alerts := tbl_alerts w;
     tbl_notification_logs := tbl_notification_logs w; console := console w;
     outbox := outbox w; db_faults := db_faults w |}.

Definition with_ssl_certificates (cs : list ssl_certificates.row) (w : World) : World :=
  {| clock := clock w; tbl_users := tbl_users w; tbl_domains := tbl_domains w;
     tbl_ssl_certificates := cs; tbl_alerts := tbl_alerts w;
     tbl_notification_logs := tbl_notification_logs w; console := console w;
     outbox := outbox w; db_faults := db_faults w |}.

Definition with_notification_logs (ls : list notification_logs.row) (w : World) : World :=
  {| clock := clock w; tbl_users := tbl_users w; tbl_domains := tbl_domains w;
     tbl_ssl_certificates := tbl_ssl_certificates w; tbl_alerts := tbl_alerts w;
     tbl_notification_logs := ls; console := console w;
     outbox := outbox w; db_faults := db_faults w |}.

Definition with_console (c : list (string * JS.error)) (w : World) : World :=
  {| clock := clock w; tbl_users := tbl_users w; tbl_domains := tbl_domains w;
     tbl_ssl_certificates := tbl_ssl_certificates w; tbl_alerts := tbl_alerts w;
     tbl_notification_logs := tbl_notification_logs w; console := c;
     outbox := outbox w; db_faults := db_faults w |}.

Definition with_outbox (o : list Attempt) (w : World) : World :=
  {| clock := clock w; tbl_users := tbl_users w; tbl_domains := tbl_domains w;
     tbl_ssl_certificates := tbl_ssl_certificates w; tbl_alerts := tbl_alerts w;
     tbl_notification_logs := tbl_notification_logs w; console := console w;
     outbox := o; db_faults := db_faults w |}.

Definition with_db_faults (f : list bool) (w : World) : World :=
  {| clock := clock w; tbl_users := tbl_users w; tbl_domains := tbl_domains w;
     tbl_ssl_certificates := tbl_ssl_certificates w; tbl_alerts := tbl_alerts w;
     tbl_notification_logs := tbl_notification_logs w; console := console w;
     outbox := outbox w; db_faults := f |}.

Definition with_clock (t : Z) (w : World) : World :=
  {| clock := t; tbl_users := tbl_users w; tbl_domains := tbl_domains w;
     tbl_ssl_certificates := tbl_ssl_certificates w; tbl_alerts := tbl_alerts w;
     tbl_notification_logs := tbl_notification_logs w; console := console w;
     outbox := outbox w; db_faults := db_faults w |}.

(* ===================================================================== *)
(** * The monad of effectful code *)
(* ===================================================================== *)

Inductive Completion (A : Type) : Type :=
| Normal (a : A)
| Throw (e : JS.error).
Arguments Normal {A} a.
Arguments Throw {A} e.

Definition M (A : Type) : Type := World -> Completion A * World.

Definition ret {A} (a : A) : M A := fun w => (Normal a, w).

Definition bind {A B} (m : M A) (k : A -> M B) : M B :=
  fun w =>
    match m w with
    | (Normal a, w') => k a w'
    | (Throw e, w') => (Throw e, w')
    end.

Definition throw {A} (e : JS.error) : M A := fun w => (Throw e, w).

(** [try { body } catch (error) { handler(error) }] *)
Definition try_catch {A} (body : M A) (handler : JS.error -> M A) : M A :=
  fun w =>
    match body w with
    | (Normal a, w') => (Normal a, w')
    | (Throw e, w') => handler e w'
    end.

Declare Scope js_scope.
Delimit Scope js_scope with js.
Notation "x <- m ;; k" := (bind m (fun x => k))
  (at level 61, m at next level, right associativity) : js_scope.
Notation "m ;; k" := (bind m (fun _ => k))
  (at level 61, right associativity) : js_scope.
Local Open Scope js_scope.

(** [for (const x of l) { body(x) }] *)
Fixpoint for_of {A} (l : list A) (body : A -> M unit) : M unit :=
  match l with
  | [] => ret tt
  | x :: rest => body x ;; for_of rest body
  end.

(** [await p] *)
Definition await {A} (p : Promise A) : M A :=
  match p with
  | Resolved v => ret v
  | Rejected e => throw e
  end.

(** [v.k] inside effectful code *)
Definition prop (v : JS.value) (k : string) : M JS.value :=
  match JS.get v k with
  | inl x => ret x
  | inr e => throw e
  end.

Definition now : M Z := fun w => (Normal (clock w), w).

Definition console_error (msg : string) (e : JS.error) : M unit :=
  fun w => (Normal tt, with_console (console w ++ [(msg, e)]) w).

(** [await pool.query(...)]: the next fault flag decides whether the query
    throws; otherwise it runs on the tables. *)
Definition pool_query {A} (q : World -> A * World) : M A :=
  fun w =>
    match db_faults w with
    | true :: rest =>
        (Throw (JS.StorageError "query failed"), with_db_faults rest w)
    | false :: rest =>
        let (a, w') := q (with_db_faults rest w) in (Normal a, w')
    | [] => let (a, w') := q w in (Normal a, w')
    end.

Definition select {A} (q : World -> A) : M A :=
  pool_query (fun w => (q w, w)).

Definition execute (u : World -> World) : M unit :=
  pool_query (fun w => (tt, u w)).

(* ===================================================================== *)
(** * Notification dispatcher (notificationService.js) *)
(* ===================================================================== *)

Definition record_attempt (a : Attempt) : M unit :=
  fun w => (Normal tt, with_outbox (outbox w ++ [a]) w).

(** [sendEmailAlert({ to, subject, message, userName })]: throws when the
    SMTP settings are missing or [sendMail] fails, after logging. *)
Definition sendEmailAlert (env : Env) (to subject : JS.value) : M unit :=
  record_attempt {| via := "email"; recipient := to; about := subject |} ;;
  match smtp_send env to with
  | None => ret tt
  | Some e => console_error "Email sending failed:" e ;; throw e
  end.

(** [sendSMSAlert({ to, message, userName })] *)
Definition sendSMSAlert (env : Env) (to message : JS.value) : M unit :=
  record_attempt {| via := "sms"; recipient := to; about := message |} ;;
  match twilio_send env to with
  | None => ret tt
  | Some e => console_error "SMS sending failed:" e ;; throw e
  end.

Definition success (m : string) : ChannelOutcome :=
  {| method := m; result := "success"; error := None |}.

Definition failed (m : string) (e : JS.error) : ChannelOutcome :=
  {| method := m; result := "failed"; error := Some (JS.message e) |}.

(** The block [if (user.email) { try { await sendEmailAlert(...);
    results.push(success) } catch (error) { results.push(failed) } }],
    which each of the three dispatchers repeats; it yields what it pushes. *)
Definition email_block (env : Env) (user name : JS.value) : M (list ChannelOutcome) :=
  e <- prop user "email" ;;
  if JS.truthy e then
    try_catch
      (to <- prop user "email" ;;
       _ <- prop user "first_name" ;;
       _ <- prop user "last_name" ;;
       sendEmailAlert env to name ;;
       ret [success "email"])
      (fun err => ret [failed "email" err])
  else ret [].

(** The block [if (user.phone) { try { await sendSMSAlert(...); ... } }]. *)
Definition sms_block (env : Env) (user name : JS.value) : M (list ChannelOutcome) :=
  p <- prop user "phone" ;;
  if JS.truthy p then
    try_catch
      (to <- prop user "phone" ;;
       _ <- prop user "first_name" ;;
       _ <- prop user "last_name" ;;
       sendSMSAlert env to name ;;
       ret [success "sms"])
      (fun err => ret [failed "sms" err])
  else ret [].

(** [sendDomainExpiryAlert(domain, user, daysUntilExpiry)]
    (notificationService.js lines 83-125). *)
Definition sendDomainExpiryAlert (env : Env)
  (domain user daysUntilExpiry : JS.value) : M (list ChannelOutcome) :=
  name <- prop domain "domain_name" ;;
  _ <- prop domain "expiry_date" ;;
  _ <- prop domain "registrar" ;;
  r1 <- email_block env user name ;;
  r2 <- sms_block env user name ;;
  ret (r1 ++ r2).

(** [sendSSLExpiryAlert(domain, sslCert, user, daysUntilExpiry)]
    (notificationService.js lines 127-169). *)
Definition sendSSLExpiryAlert (env : Env)
  (domain sslCert user daysUntilExpiry : JS.value) : M (list ChannelOutcome) :=
  name <- prop domain "domain_name" ;;
  _ <- prop sslCert "valid_until" ;;
  _ <- prop sslCert "issuer" ;;
  r1 <- email_block env user name ;;
  r2 <- sms_block env user name ;;
  ret (r1 ++ r2).

(** [sendDomainDowntimeAlert(domain, user, error)]
    (notificationService.js lines 171-213). *)
Definition sendDomainDowntimeAlert (env : Env)
  (domain user error : JS.value) : M (list ChannelOutcome) :=
  name <- prop domain "domain_name" ;;
  r1 <- email_block env user name ;;
  r2 <- sms_block env user name ;;
  ret (r1 ++ r2).

(* ===================================================================== *)
(** * Queries of the sweeps *)
(* ===================================================================== *)

(** The columns of each table that the engine reads. *)
Definition domain_columns (d : domains.row) : list (string * JS.value) :=
  [ ("id", JS.Num (domains.id d));
    ("user_id", JS.Num (domains.user_id d));
    ("domain_name", JS.Str (domains.domain_name d));
    ("registrar", JS.of_option (domains.registrar d));
    ("expiry_date", JS.Date (dateToMs (domains.expiry_date d)));
    ("status", JS.Str (domains.status d)) ].

Definition ssl_columns (s : ssl_certificates.row) : list (string * JS.value) :=
  [ ("id", JS.Num (ssl_certificates.id s));
    ("domain_id", JS.Num (ssl_certificates.domain_id s));
    ("issuer", JS.of_option (ssl_certificates.issuer s));
    ("valid_from", JS.of_date (option_map dateToMs (ssl_certificates.valid_from s)));
    ("valid_until", JS.of_date (option_map dateToMs (ssl_certificates.valid_until s)));
    ("status", JS.Str (ssl_certificates.status s));
    ("last_checked", JS.Date (ssl_certificates.last_checked s)) ].

Definition user_columns (u : users.row) : list (string * JS.value) :=
  [ ("email", JS.Str (users.email u));
    ("first_name", JS.of_option (users.first_name u));
    ("last_name", JS.of_option (users.last_name u));
    ("phone", JS.of_option (users.phone u)) ].

Definition alert_columns (a : alerts.row) : list (string * JS.value) :=
  [ ("days_before_expiry", JS.Num (alerts.days_before_expiry a));
    ("email_enabled", JS.Bool (alerts.email_enabled a));
    ("sms_enabled", JS.Bool (alerts.sms_enabled a)) ].

(** [SELECT d.*, u.email, ...]: the row object of the daily and uptime sweeps. *)
Definition domain_record (r : domains.row * users.row) : JS.value :=
  let (d, u) := r in JS.row_object (domain_columns d ++ user_columns u).

(** [SELECT d.*, s.*, u.email, ...]: the row object of the SSL sweep. *)
Definition ssl_record (r : domains.row * ssl_certificates.row * users.row) : JS.value :=
  let '(d, s, u) := r in
  JS.row_object (domain_columns d ++ ssl_columns s ++ user_columns u).

(** [SELECT d.*, u.email, ..., a.days_before_expiry, a.email_enabled,
    a.sms_enabled]: the row object of the first loop of the alert sweep. *)
Definition expiring_domain_record (r : domains.row * users.row * alerts.row) : JS.value :=
  let '(d, u, a) := r in
  JS.row_object (domain_columns d ++ user_columns u ++ alert_columns a).

(** [SELECT d.*, s.*, u.email, ..., a.days_before_expiry, ...]: the row
    object of the second loop of the alert sweep. *)
Definition expiring_ssl_record
  (r : domains.row * ssl_certificates.row * users.row * alerts.row) : JS.value :=
  let '(d, s, u, a) := r in
  JS.row_object (domain_columns d ++ ssl_columns s ++ user_columns u ++ alert_columns a).

Definition is_active (d : domains.row) : bool :=
  String.eqb (domains.status d) "active".

(** [FROM domains d JOIN users u ON d.user_id = u.id WHERE d.status = 'active'] *)
Definition active_domains (w : World) : list (domains.row * users.row) :=
  flat_map
    (fun d => map (pair d)
                  (filter (fun u => users.id u =? domains.user_id d) (tbl_users w)))
    (filter is_active (tbl_domains w)).

(** [FROM domains d JOIN ssl_certificates s ON d.id = s.domain_id
     JOIN users u ON d.user_id = u.id WHERE d.status = 'active'] *)
Definition active_ssl (w : World)
  : list (domains.row * ssl_certificates.row * users.row) :=
  flat_map
    (fun d =>
       flat_map
         (fun s => map (fun u => (d, s, u))
                       (filter (fun u => users.id u =? domains.user_id d) (tbl_users w)))
         (filter (fun s => ssl_certificates.domain_id s =? domains.id d)
                 (tbl_ssl_certificates w)))
    (filter is_active (tbl_domains w)).

(** [SELECT * FROM alerts WHERE domain_id = $1 AND type = <ty>
     AND days_before_expiry >= $2] *)
Definition matching_alerts (ty : string) (domain_id days : Z) (w : World)
  : list alerts.row :=
  filter (fun a => (alerts.domain_id a =? domain_id)
                   && String.eqb (alerts.type a) ty
                   && (alerts.days_before_expiry a >=? days))
         (tbl_alerts w).

(** [SELECT * FROM alerts WHERE domain_id = $1 AND type = 'domain_downtime'] *)
Definition downtime_alerts (domain_id : Z) (w : World) : list alerts.row :=
  filter (fun a => (alerts.domain_id a =? domain_id)
                   && String.eqb (alerts.type a) "domain_downtime")
         (tbl_alerts w).

(** [INSERT INTO notification_logs (user_id, domain_id, type, method,
     status, sent_at) VALUES ($1, $2, $3, $4, $5, CURRENT_TIMESTAMP)]:
    the row an accepted INSERT writes. *)
Definition insert_notification_log (user_id domain_id : Z) (ty mth st : string)
  (w : World) : World :=
  with_notification_logs
    (tbl_notification_logs w ++
       [ {| notification_logs.user_id := user_id;
            notification_logs.domain_id := domain_id;
            notification_logs.type := ty;
            notification_logs.method := mth;
            notification_logs.status := st;
            notification_logs.sent_at := clock w |} ])
    w.

(** The two references of [notification_logs] (database.js lines 110-111):
    [user_id INTEGER REFERENCES users(id)] and
    [domain_id INTEGER REFERENCES domains(id)]. *)
Definition references_hold (user_id domain_id : Z) (w : World) : bool :=
  existsb (fun d => domains.id d =? domain_id) (tbl_domains w)
  && existsb (fun u => users.id u =? user_id) (tbl_users w).

(** The INSERT as the storage runs it.  A row that names no user or no
    domain is refused with error 23503 (foreign_key_violation) and nothing
    is written; [pool.query] then rejects.  The sweeps that pass the [id]
    and [user_id] of a [domains] row they have just read joined with its
    user cannot be refused on these grounds (lemmas
    [active_domains_references], [active_ssl_references] and
    [expiring_domains_references]); the certificate loop of the alert
    sweep, which passes [record.id], can. *)
Definition insert_notification_log_checked (user_id domain_id : Z)
  (ty mth st : string) : M unit :=
  accepted <- pool_query
                (fun w =>
                   if references_hold user_id domain_id w
                   then (true, insert_notification_log user_id domain_id ty mth st w)
                   else (false, w)) ;;
  if accepted then ret tt else throw (JS.StorageError "23503").

(** [UPDATE domains SET status = 'expired' ... WHERE id = $1] *)
Definition mark_expired (domain_id : Z) (w : World) : World :=
  with_domains
    (map (fun d => if domains.id d =? domain_id
                   then domains.set_status "expired" d else d)
         (tbl_domains w))
    w.

(** [UPDATE ssl_certificates SET issuer = $1, valid_from = $2,
     valid_until = $3, status = $4, last_checked = CURRENT_TIMESTAMP
     WHERE domain_id = $5] *)
Definition update_ssl_certificate (info : SSLInfo) (domain_id : Z) (w : World) : World :=
  with_ssl_certificates
    (map (fun s =>
            if ssl_certificates.domain_id s =? domain_id then
              {| ssl_certificates.id := ssl_certificates.id s;
                 ssl_certificates.domain_id := ssl_certificates.domain_id s;
                 ssl_certificates.issuer := Some (issuer info);
                 ssl_certificates.valid_from := Some (validFrom info);
                 ssl_certificates.valid_until := Some (validUntil info);
                 ssl_certificates.status := status info;
                 ssl_certificates.last_checked := clock w |}
            else s)
         (tbl_ssl_certificates w))
    w.

(** [24 hours] *)
Definition COOLDOWN_MS : Z := 24 * 60 * 60 * 1000.

(** [SELECT id FROM notification_logs WHERE domain_id = $1 AND type = <ty>
     AND sent_at > CURRENT_TIMESTAMP - INTERVAL '24 hours'] *)
Definition recent_notifications (ty : string) (domain_id : Z) (w : World)
  : list notification_logs.row :=
  filter (fun l => (notification_logs.domain_id l =? domain_id)
                   && String.eqb (notification_logs.type l) ty
                   && (notification_logs.sent_at l >? clock w - COOLDOWN_MS))
         (tbl_notification_logs w).

(** [d.expiry_date <= CURRENT_DATE + INTERVAL '30 days'
     AND d.expiry_date > CURRENT_DATE] *)
Definition in_sql_window (day : Z) (w : World) : bool :=
  (day <=? utcDate (clock w) + 30) && (day >? utcDate (clock w)).

(** The first query of [checkAndSendAlerts]. *)
Definition expiring_domains (w : World)
  : list (domains.row * users.row * alerts.row) :=
  flat_map
    (fun d =>
       flat_map
         (fun u => map (fun a => (d, u, a))
                       (filter (fun a => (alerts.domain_id a =? domains.id d)
                                         && String.eqb (alerts.type a) "domain_expiry")
                               (tbl_alerts w)))
         (filter (fun u => users.id u =? domains.user_id d) (tbl_users w)))
    (filter (fun d => in_sql_window (domains.expiry_date d) w && is_active d)
            (tbl_domains w)).

(** The second query of [checkAndSendAlerts]. *)
Definition expiring_ssl (w : World)
  : list (domains.row * ssl_certificates.row * users.row * alerts.row) :=
  flat_map
    (fun d =>
       flat_map
         (fun s =>
            flat_map
              (fun u => map (fun a => (d, s, u, a))
                            (filter (fun a => (alerts.domain_id a =? domains.id d)
                                              && String.eqb (alerts.type a) "ssl_expiry")
                                    (tbl_alerts w)))
              (filter (fun u => users.id u =? domains.user_id d) (tbl_users w)))
         (filter (fun s => (ssl_certificates.domain_id s =? domains.id d)
                           && match ssl_certificates.valid_until s with
                              | Some day => in_sql_window day w
                              | None => false
                              end)
                 (tbl_ssl_certificates w)))
    (filter is_active (tbl_domains w)).

(* ===================================================================== *)
(** * The four sweeps (monitoring.js) *)
(* ===================================================================== *)

Definition nonempty {A} (rows : list A) : bool := negb (Nat.eqb (List.length rows) 0).

(** Body of the [try] inside the loop of [performDailyMonitoring]
    (lines 58-86). *)
Definition daily_body (env : Env) (domain : domains.row * users.row) : M unit :=
  t <- now ;;
  let days := daysUntilExpiry (dateToMs (domains.expiry_date (fst domain))) t in
  (if (days <=? 30) && (days >? 0) then
     alertResult <- select (matching_alerts "domain_expiry" (domains.id (fst domain)) days) ;;
     if nonempty alertResult then
       _ <- sendDomainExpiryAlert env (domain_record domain) (domain_record domain)
                                  (JS.Num days) ;;
       execute (insert_notification_log (domains.user_id (fst domain))
                  (domains.id (fst domain)) "domain_expiry" "automated" "sent")
     else ret tt
   else ret tt) ;;
  if days <=? 0 then execute (mark_expired (domains.id (fst domain)))
  else ret tt.

Definition daily_iteration (env : Env) (domain : domains.row * users.row) : M unit :=
  try_catch (daily_body env domain)
    (fun e => console_error
                (String.append "Error monitoring domain "
                               (domains.domain_name (fst domain))) e).

(** [performDailyMonitoring()] (lines 46-94). *)
Definition performDailyMonitoring (env : Env) : M unit :=
  try_catch
    (rows <- select active_domains ;;
     for_of rows (daily_iteration env))
    (fun e => console_error "Daily monitoring error:" e).

(** Body of the [try] inside the loop of [performSSLMonitoring]
    (lines 110-153).  The dispatcher has four parameters and is called
    with three arguments: the fourth is [undefined]. *)
Definition ssl_body (env : Env)
  (record : domains.row * ssl_certificates.row * users.row) : M unit :=
  let '(d, s, _) := record in
  t <- now ;;
  sslInfo <- await (checkSSLCertificate env (domains.domain_name d) t) ;;
  match sslInfo with
  | Some info =>
      execute (update_ssl_certificate info (ssl_certificates.domain_id s)) ;;
      t' <- now ;;
      let days := daysUntilExpiry (dateToMs (validUntil info)) t' in
      if (days <=? 30) && (days >? 0) then
        alertResult <- select (matching_alerts "ssl_expiry"
                                 (ssl_certificates.domain_id s) days) ;;
        if nonempty alertResult then
          _ <- sendSSLExpiryAlert env (ssl_record record) (ssl_record record)
                                  (JS.Num days) JS.Undefined ;;
          execute (insert_notification_log (domains.user_id d)
                     (ssl_certificates.domain_id s) "ssl_expiry" "automated" "sent")
        else ret tt
      else ret tt
  | None => ret tt
  end.

Definition ssl_iteration (env : Env)
  (record : domains.row * ssl_certificates.row * users.row) : M unit :=
  try_catch (ssl_body env record)
    (fun e => console_error
                (String.append "Error monitoring SSL for domain "
                               (domains.domain_name (fst (fst record)))) e).

(** [performSSLMonitoring()] (lines 96-161). *)
Definition performSSLMonitoring (env : Env) : M unit :=
  try_catch
    (rows <- select active_ssl ;;
     for_of rows (ssl_iteration env))
    (fun e => console_error "SSL monitoring error:" e).

(** Body of the [try] inside the loop of [performUptimeMonitoring]
    (lines 175-194). *)
Definition uptime_body (env : Env) (domain : domains.row * users.row) : M unit :=
  isUp <- await (checkDomainUptime env (domains.domain_name (fst domain))) ;;
  if negb isUp then
    alertResult <- select (downtime_alerts (domains.id (fst domain))) ;;
    if nonempty alertResult then
      _ <- sendDomainDowntimeAlert env (domain_record domain) (domain_record domain)
                                   (JS.Str "Domain appears to be down") ;;
      execute (insert_notification_log (domains.user_id (fst domain))
                 (domains.id (fst domain)) "domain_downtime" "automated" "sent")
    else ret tt
  else ret tt.

Definition uptime_iteration (env : Env) (domain : domains.row * users.row) : M unit :=
  try_catch (uptime_body env domain)
    (fun e => console_error
                (String.append "Error checking uptime for domain "
                               (domains.domain_name (fst domain))) e).

(** [performUptimeMonitoring()] (lines 163-202). *)
Definition performUptimeMonitoring (env : Env) : M unit :=
  try_catch
    (rows <- select active_domains ;;
     for_of rows (uptime_iteration env))
    (fun e => console_error "Uptime monitoring error:" e).

(** Body of the first loop of [checkAndSendAlerts] (lines 244-263); there
    is no [try] around it. *)
Definition expiring_domain_iteration (env : Env)
  (record : domains.row * users.row * alerts.row) : M unit :=
  let '(d, _, a) := record in
  t <- now ;;
  let days := daysUntilExpiry (dateToMs (domains.expiry_date d)) t in
  if days <=? alerts.days_before_expiry a then
    recentNotification <- select (recent_notifications "domain_expiry" (domains.id d)) ;;
    if Nat.eqb (List.length recentNotification) 0 then
      _ <- sendDomainExpiryAlert env (expiring_domain_record record)
                                 (expiring_domain_record record) (JS.Num days) ;;
      execute (insert_notification_log (domains.user_id d) (domains.id d)
                 "domain_expiry" "automated" "sent")
    else ret tt
  else ret tt.

(** Body of the second loop of [checkAndSendAlerts] (lines 282-301).  The
    row selects [d.*, s.*], so [record.id] is the certificate's [id]: the
    lookup and the INSERT pass it where a domain's [id] belongs. *)
Definition expiring_ssl_iteration (env : Env)
  (record : domains.row * ssl_certificates.row * users.row * alerts.row) : M unit :=
  let '(d, s, _, a) := record in
  t <- now ;;
  match ssl_certificates.valid_until s with
  | Some day =>
      let days := daysUntilExpiry (dateToMs day) t in
      if days <=? alerts.days_before_expiry a then
        recentNotification <- select (recent_notifications "ssl_expiry"
                                        (ssl_certificates.id s)) ;;
        if Nat.eqb (List.length recentNotification) 0 then
          _ <- sendSSLExpiryAlert env (expiring_ssl_record record)
                                  (expiring_ssl_record record) (JS.Num days)
                                  JS.Undefined ;;
          insert_notification_log_checked (domains.user_id d) (ssl_certificates.id s)
            "ssl_expiry" "automated" "sent"
        else ret tt
      else ret tt
  | None => ret tt   (* excluded by the query's window on [valid_until] *)
  end.

(** [checkAndSendAlerts()] (lines 227-306). *)
Definition checkAndSendAlerts (env : Env) : M unit :=
  try_catch
    (expiringDomains <- select expiring_domains ;;
     for_of expiringDomains (expiring_domain_iteration env) ;;
     expiringSSL <- select expiring_ssl ;;
     for_of expiringSSL (expiring_ssl_iteration env))
    (fun e => console_error "Alert checking error:" e).

(** Time passes while a sweep awaits the storage and the transports. *)
Definition elapse (dt : Z) : M unit :=
  fun w => (Normal tt, with_clock (clock w + dt) w).

(** [checkAndSendAlerts()] when [dt] milliseconds pass between the moment
    the storage evaluates a query, [CURRENT_DATE] included, and the moment
    the loop over its rows starts reading [new Date()] (lines 244, 282).
    [checkAndSendAlerts] above is the case in which no time passes
    (lemma [checkAndSendAlerts_timed_zero]). *)
Definition checkAndSendAlerts_timed (env : Env) (dt : Z) : M unit :=
  try_catch
    (expiringDomains <- select expiring_domains ;;
     elapse dt ;;
     for_of expiringDomains (expiring_domain_iteration env) ;;
     expiringSSL <- select expiring_ssl ;;
     elapse dt ;;
     for_of expiringSSL (expiring_ssl_iteration env))
    (fun e => console_error "Alert checking error:" e).

(** Running an effectful computation: the world it leaves. *)
Definition exec {A} (m : M A) (w : World) : World := snd (m w).

(* ===================================================================== *)
(** * Alert rules (routes/domains.js) *)
(* ===================================================================== *)

(** [body('daysBeforeExpiry').optional().isInt({ min: 1, max: 90 })] with
    the default [daysBeforeExpiry = 30] of the handler. *)
Definition valid_daysBeforeExpiry (v : option Z) : option Z :=
  match v with
  | None => Some 30
  | Some n => if (1 <=? n) && (n <=? 90) then Some n else None
  end.

(* ===================================================================== *)
(** * Vocabulary of the statements *)
(* ===================================================================== *)

(** The outcome record that a transport result leads to. *)
Definition outcome_of (m : string) (r : TransportResult) : ChannelOutcome :=
  match r with
  | None => success m
  | Some e => failed m e
  end.

(** The world after one call of a transport wrapper. *)
Definition after_attempt (a : Attempt) (log : string) (r : TransportResult)
  (w : World) : World :=
  match r with
  | None => with_outbox (outbox w ++ [a]) w
  | Some e => with_console (console w ++ [(log, e)]) (with_outbox (outbox w ++ [a]) w)
  end.

(** [keeps f m]: running [m] never changes the component [f] of the world,
    whether [m] returns or throws. *)
Definition keeps {A B} (f : World -> B) (m : M A) : Prop :=
  forall w, f (snd (m w)) = f w.

(** An iteration whose body sits in [try { } catch (error)
    { console.error(label, error) }], as in three of the four sweeps. *)
Definition guarded {A} (body : A -> M unit) (label : A -> string) (x : A) : M unit :=
  try_catch (body x) (fun e => console_error (label x) e).

(** An alert fires when a transport is called or a log entry is written. *)
Definition fires {A} (m : M A) (w : World) : Prop :=
  outbox (exec m w) <> outbox w
  \/ tbl_notification_logs (exec m w) <> tbl_notification_logs w.

(* ===================================================================== *)
(** * Concrete scenarios *)
(* ===================================================================== *)

Module Scenario.

(** A network on which every connection is refused, an SMTP relay that
    delivers and an SMS provider that is not configured. *)
Definition refused_env : Env :=
  {| url_hostname := fun s => Some (String.substring 8 (String.length s - 8) s);
     https_request := fun _ => HttpsError (JS.TransportError "ECONNREFUSED");
     tls_connect := fun _ => TlsError (JS.TransportError "ECONNREFUSED");
     http_get := fun _ _ => GetError (JS.TransportError "ECONNREFUSED");
     smtp_send := fun _ => None;
     twilio_send := fun _ => Some (JS.Error "Twilio configuration not set") |}.

(** The same with the roles of the two transports exchanged. *)
Definition smtp_down_env : Env :=
  {| url_hostname := url_hostname refused_env;
     https_request := https_request refused_env;
     tls_connect := tls_connect refused_env;
     http_get := http_get refused_env;
     smtp_send := fun _ => Some (JS.Error "SMTP configuration not set");
     twilio_send := fun _ => None |}.

(** A host that presents a certificate valid until day 120. *)
Definition serving_env : Env :=
  {| url_hostname := url_hostname refused_env;
     https_request := fun _ =>
       HttpsResponse (Some {| valid_from := Some (dateToMs 20);
                              valid_to := Some (dateToMs 120 + 3600000);
                              issuer_CN := Some "R3"; issuer_O := None |});
     tls_connect := tls_connect refused_env;
     http_get := fun _ _ => GetResponse 200;
     smtp_send := fun _ => None;
     twilio_send := fun _ => None |}.

Definition alice : users.row :=
  {| users.id := 1; users.email := "alice@example.org";
     users.first_name := Some "Alice"; users.last_name := None;
     users.phone := Some "+15550100" |}.

Definition example_com : domains.row :=
  {| domains.id := 7; domains.user_id := 1;
     domains.domain_name := "example.com"; domains.registrar := None;
     domains.expiry_date := 110; domains.status := "active" |}.

Definition example_net : domains.row :=
  {| domains.id := 8; domains.user_id := 1;
     domains.domain_name := "example.net"; domains.registrar := None;
     domains.expiry_date := 105; domains.status := "active" |}.

(** A domain that expires on day 101. *)
Definition example_org : domains.row :=
  {| domains.id := 9; domains.user_id := 1;
     domains.domain_name := "example.org"; domains.registrar := None;
     domains.expiry_date := 101; domains.status := "active" |}.

(** A certificate row whose [id] differs from its domain's. *)
Definition example_com_cert : ssl_certificates.row :=
  {| ssl_certificates.id := 3; ssl_certificates.domain_id := 7;
     ssl_certificates.issuer := Some "R3";
     ssl_certificates.valid_from := Some 20;
     ssl_certificates.valid_until := Some 120;
     ssl_certificates.status := "valid";
     ssl_certificates.last_checked := 0 |}.

(** A rule as the route creates it by default, with SMS switched off. *)
Definition rule (id domain_id : Z) (ty : string) (threshold : Z) : alerts.row :=
  {| alerts.id := id; alerts.user_id := 1; alerts.domain_id := domain_id;
     alerts.type := ty; alerts.email_enabled := true;
     alerts.sms_enabled := false; alerts.days_before_expiry := threshold |}.

(** Day 100 at 08:00 UTC: [example.com] expires in ten days. *)
Definition eight_oclock : Z := dateToMs 100 + 8 * 3600000.
Definition nine_oclock : Z := dateToMs 100 + 9 * 3600000.

(** Day 100, half a second before UTC midnight. *)
Definition before_midnight : Z := dateToMs 101 - 500.

Definition world (ds : list domains.row) (cs : list ssl_certificates.row)
  (rules : list alerts.row) (faults : list bool) : World :=
  {| clock := eight_oclock; tbl_users := [alice]; tbl_domains := ds;
     tbl_ssl_certificates := cs; tbl_alerts := rules;
     tbl_notification_logs := []; console := []; outbox := [];
     db_faults := faults |}.

End Scenario.

(* ===================================================================== *)
(** * The rest of the certificate service and of the scheduler *)
(* ===================================================================== *)

(** What [getDetailedSSLCertificate] adds to the prober's object. *)
Record DetailedSSLInfo : Type := {
  basicInfo : SSLInfo;
  detail_daysUntilExpiry : Z;
  isExpired : bool;
  isExpiringSoon : bool
}.

(** [getDetailedSSLCertificate(domain)] (sslService.js lines 124-145).
    Here the prober is awaited inside the [try]: its rejection is caught
    and [null] is returned. *)
Definition getDetailedSSLCertificate (env : Env) (domain : string) (now : Z)
  : Promise (option DetailedSSLInfo) :=
  match checkSSLCertificate env domain now with
  | Resolved None => Resolved None                  (* if (!basicInfo) return null *)
  | Resolved (Some info) =>
      Resolved (Some
        {| basicInfo := info;
           detail_daysUntilExpiry := daysUntilExpiry (dateToMs (validUntil info)) now;
           isExpired := dateToMs (validUntil info) <? now;
           isExpiringSoon := dateToMs (validUntil info) <? now + THIRTY_DAYS_MS |})
  | Rejected _ => Resolved None                     (* catch: return null *)
  end.

(** One field of a cron expression, as far as the four jobs use them:
    [*], [*/n] and a number. *)
Inductive CronField : Type :=
| Any
| Every (n : Z)
| At (n : Z).

Definition field_matches (f : CronField) (v : Z) : bool :=
  match f with
  | Any => true
  | Every n => v mod n =? 0
  | At n => v =? n
  end.

(** The minute and hour fields of a job; the three other fields of all
    four expressions are [*]. *)
Record CronJob : Type := { cron_minute : CronField; cron_hour : CronField }.

(** ['0 9 * * *'], ['0 */6 * * *'], ['*/30 * * * *'], ['0 * * * *']
    (monitoring.js lines 11, 20, 29, 38), all in UTC. *)
Definition dailyMonitoringJob : CronJob := {| cron_minute := At 0; cron_hour := At 9 |}.
Definition sslMonitoringJob : CronJob := {| cron_minute := At 0; cron_hour := Every 6 |}.
Definition uptimeMonitoringJob : CronJob := {| cron_minute := Every 30; cron_hour := Any |}.
Definition alertCheckingJob : CronJob := {| cron_minute := At 0; cron_hour := Any |}.

(** Does the job fire at [hour]:[minute]? *)
Definition job_fires (j : CronJob) (hour minute : Z) : bool :=
  field_matches (cron_minute j) minute && field_matches (cron_hour j) hour.

(** The minutes of one day, [0 .. 1439]. *)
Definition minutes_of_day : list Z := map Z.of_nat (seq 0 1440).

Definition firings_per_day (j : CronJob) : nat :=
  List.length (filter (fun m => job_fires j (m / 60) (m mod 60)) minutes_of_day).

(* ===================================================================== *)
(** * More vocabulary *)
(* ===================================================================== *)

(** [preserves P m]: a world that satisfies [P] still does after [m]. *)
Definition preserves {A} (P : World -> Prop) (m : M A) : Prop :=
  forall w, P w -> P (snd (m w)).




(** No storage fault is pending. *)
Definition fault_free (w : World) : Prop := db_faults w = [].

(** Every domain row with the identifier [id] is marked expired. *)
Definition all_expired (id : Z) (w : World) : Prop :=
  forall d, In d (tbl_domains w) -> domains.id d = id -> domains.status d = "expired".

(** Does the string contain a colon? *)
Fixpoint has_colon (s : string) : bool :=
  match s with
  | EmptyString => false
  | String c rest => (nat_of_ascii c =? 58)%nat || has_colon rest
  end.

(* ===================================================================== *)
(** * The alert routes (routes/alerts.js) and the list view *)
(* ===================================================================== *)

Definition with_alerts (rules : list alerts.row) (w : World) : World :=
  {| clock := clock w; tbl_users := tbl_users w; tbl_domains := tbl_domains w;
     tbl_ssl_certificates := tbl_ssl_certificates w; tbl_alerts := rules;
     tbl_notification_logs := tbl_notification_logs w; console := console w;
     outbox := outbox w; db_faults := db_faults w |}.

(** [SELECT id FROM domains WHERE id = $1 AND user_id = $2] *)
Definition owned_domains (domain_id user_id : Z) (w : World) : list domains.row :=
  filter (fun d => (domains.id d =? domain_id) && (domains.user_id d =? user_id))
         (tbl_domains w).

(** [SELECT id FROM alerts WHERE domain_id = $1 AND type = $2 AND user_id = $3] *)
Definition existing_alerts (domain_id : Z) (ty : string) (user_id : Z) (w : World)
  : list alerts.row :=
  filter (fun a => (alerts.domain_id a =? domain_id)
                   && String.eqb (alerts.type a) ty
                   && (alerts.user_id a =? user_id))
         (tbl_alerts w).

(** [INSERT INTO alerts (user_id, domain_id, type, email_enabled,
     sms_enabled, days_before_expiry) VALUES (...)]; the [id] is the one
    the table's sequence hands out. *)
Definition insert_alert (a : alerts.row) (w : World) : World :=
  with_alerts (tbl_alerts w ++ [a]) w.

(** [DELETE FROM alerts WHERE domain_id = $1 AND user_id = $2] *)
Definition delete_alerts_of (domain_id user_id : Z) (w : World) : World :=
  with_alerts
    (filter (fun a => negb ((alerts.domain_id a =? domain_id)
                            && (alerts.user_id a =? user_id)))
            (tbl_alerts w))
    w.

(** The body of [POST /alerts] once parsed. *)
Record AlertBody : Type := {
  domainId : Z;
  type : string;
  emailEnabled : option bool;
  smsEnabled : option bool;
  daysBeforeExpiry : option Z
}.

(** [isIn(['domain_expiry', 'ssl_expiry', 'ssl_invalid', 'domain_downtime'])] *)
Definition alert_types : list string :=
  ["domain_expiry"; "ssl_expiry"; "ssl_invalid"; "domain_downtime"].

Definition is_alert_type (ty : string) : bool := existsb (String.eqb ty) alert_types.

(** [x = d] of a destructuring with a default. *)
Definition default_to {A} (d : A) (x : option A) : A :=
  match x with Some v => v | None => d end.

(** [router.post('/', ...)] of the alert routes (routes/domains.js lines
    322-372 as given): the HTTP status of the response.  [new_id] is
    the identifier the sequence gives the inserted row. *)
Definition post_alert (new_id user_id : Z) (body : AlertBody) : M Z :=
  try_catch
    (match is_alert_type (type body), valid_daysBeforeExpiry (daysBeforeExpiry body) with
     | true, Some days =>
         domainCheck <- select (owned_domains (domainId body) user_id) ;;
         if Nat.eqb (List.length domainCheck) 0 then ret 404
         else
           existingAlert <- select (existing_alerts (domainId body) (type body) user_id) ;;
           if nonempty existingAlert then ret 400
           else
             execute (insert_alert
                        {| alerts.id := new_id; alerts.user_id := user_id;
                           alerts.domain_id := domainId body;
                           alerts.type := type body;
                           alerts.email_enabled := default_to true (emailEnabled body);
                           alerts.sms_enabled := default_to false (smsEnabled body);
                           alerts.days_before_expiry := days |}) ;;
             ret 201
     | _, _ => ret 400
     end)
    (fun e => console_error "Create alert error:" e ;; ret 500).

(** One element of the array of [PUT /alerts/domain/:domainId/bulk]; all
    four fields are required there. *)
Record BulkAlert : Type := {
  bulk_type : string;
  bulk_emailEnabled : bool;
  bulk_smsEnabled : bool;
  bulk_daysBeforeExpiry : Z
}.

Definition valid_bulk_alert (a : BulkAlert) : bool :=
  is_alert_type (bulk_type a)
  && (1 <=? bulk_daysBeforeExpiry a) && (bulk_daysBeforeExpiry a <=? 90).

Definition bulk_row (id user_id domain_id : Z) (a : BulkAlert) : alerts.row :=
  {| alerts.id := id; alerts.user_id := user_id; alerts.domain_id := domain_id;
     alerts.type := bulk_type a; alerts.email_enabled := bulk_emailEnabled a;
     alerts.sms_enabled := bulk_smsEnabled a;
     alerts.days_before_expiry := bulk_daysBeforeExpiry a |}.

(** The insert loop of the bulk route; [ids k] is the identifier of the
    [k]-th row inserted by the request. *)
Fixpoint bulk_inserts (ids : nat -> Z) (k : nat) (user_id domain_id : Z)
  (rules : list BulkAlert) : M unit :=
  match rules with
  | [] => ret tt
  | a :: rest =>
      execute (insert_alert (bulk_row (ids k) user_id domain_id a)) ;;
      bulk_inserts ids (S k) user_id domain_id rest
  end.

(** [router.put('/domain/:domainId/bulk', ...)]: the HTTP status. *)
Definition put_alerts_bulk (ids : nat -> Z) (user_id domain_id : Z)
  (rules : list BulkAlert) : M Z :=
  try_catch
    (if forallb valid_bulk_alert rules then
       domainCheck <- select (owned_domains domain_id user_id) ;;
       if Nat.eqb (List.length domainCheck) 0 then ret 404
       else
         execute (delete_alerts_of domain_id user_id) ;;
         bulk_inserts ids 0 user_id domain_id rules ;;
         ret 200
     else ret 400)
    (fun e => console_error "Bulk update alerts error:" e ;; ret 500).

(** [SELECT a.*, d.domain_name, u.email, u.first_name, u.last_name, u.phone
     FROM alerts a JOIN domains d ON a.domain_id = d.id
     JOIN users u ON a.user_id = u.id WHERE a.id = $1 AND a.user_id = $2] *)
Definition test_alert_rows (alert_id user_id : Z) (w : World)
  : list (alerts.row * domains.row * users.row) :=
  flat_map
    (fun a =>
       flat_map
         (fun d => map (fun u => (a, d, u))
                       (filter (fun u => users.id u =? alerts.user_id a) (tbl_users w)))
         (filter (fun d => domains.id d =? alerts.domain_id a) (tbl_domains w)))
    (filter (fun a => (alerts.id a =? alert_id) && (alerts.user_id a =? user_id))
            (tbl_alerts w)).

(** [router.post('/test/:id', ...)]: the HTTP status and the [results]
    array of the response. *)
Definition post_alert_test (env : Env) (alert_id user_id : Z)
  : M (Z * list ChannelOutcome) :=
  try_catch
    (alertResult <- select (test_alert_rows alert_id user_id) ;;
     match alertResult with
     | [] => ret (404, [])
     | (a, d, u) :: _ =>
         r1 <- (if alerts.email_enabled a then
                  try_catch
                    (sendEmailAlert env (JS.Str (users.email u))
                                    (JS.Str (domains.domain_name d)) ;;
                     ret [success "email"])
                    (fun err => ret [failed "email" err])
                else ret []) ;;
         r2 <- (if alerts.sms_enabled a && JS.truthy (JS.of_option (users.phone u)) then
                  try_catch
                    (sendSMSAlert env (JS.of_option (users.phone u))
                                  (JS.Str (domains.domain_name d)) ;;
                     ret [success "sms"])
                    (fun err => ret [failed "sms" err])
                else ret []) ;;
         execute (insert_notification_log user_id (alerts.domain_id a)
                    "test" "test" "sent") ;;
         ret (200, r1 ++ r2)
     end)
    (fun e => console_error "Test alert error:" e ;; ret (500, [])).

(** The two [CASE] columns of the list view (routes/domains.js lines
    22-32), on calendar days; [today] is [CURRENT_DATE]. *)
Definition domain_status (expiry_date today : Z) : string :=
  if expiry_date <=? today then "expired"
  else if expiry_date <=? today + 30 then "expiring_soon"
  else "active".

Definition ssl_health_status (valid_until : option Z) (today : Z) : string :=
  match valid_until with
  | None => "no_ssl"
  | Some day =>
      if day <=? today then "ssl_expired"
      else if day <=? today + 30 then "ssl_expiring_soon"
      else "ssl_valid"
  end.

(** The key under which the create route looks for an existing rule. *)
Definition rule_key (a : alerts.row) : Z * Z * string :=
  (alerts.user_id a, alerts.domain_id a, alerts.type a).

Definition unique_rules (w : World) : Prop := NoDup (map rule_key (tbl_alerts w)).

(** The rows the bulk route inserts, the [k]-th first. *)
Fixpoint bulk_rows (ids : nat -> Z) (k : nat) (user_id domain_id : Z)
  (rules : list BulkAlert) : list alerts.row :=
  match rules with
  | [] => []
  | a :: rest =>
      bulk_row (ids k) user_id domain_id a
      :: bulk_rows ids (S k) user_id domain_id rest
  end.

(** Is the rule one of [user_id] on [domain_id]? *)
Definition rule_of (domain_id user_id : Z) (a : alerts.row) : bool :=
  (alerts.domain_id a =? domain_id) && (alerts.user_id a =? user_id).

(** What a rule row holds of the request element it was made from. *)
Definition to_bulk (a : alerts.row) : BulkAlert :=
  {| bulk_type := alerts.type a; bulk_emailEnabled := alerts.email_enabled a;
     bulk_smsEnabled := alerts.sms_enabled a;
     bulk_daysBeforeExpiry := alerts.days_before_expiry a |}.

(* ===================================================================== *)
(** * Properties of the expiry evaluator *)
(* ===================================================================== *)

Lemma MS_PER_DAY_pos : 0 < MS_PER_DAY.
Proof. reflexivity. Qed.

(** [Math_ceil_div a b] is the least integer [c] with [a <= c * b]. *)
Lemma Math_ceil_div_spec (a b : Z) :
  0 < b ->
  (Math_ceil_div a b - 1) * b < a <= Math_ceil_div a b * b.
Proof.
  intros Hb. unfold Math_ceil_div.
  pose proof (Z.div_mod (- a) b ltac:(lia)) as Hdm.
  pose proof (Z.mod_pos_bound (- a) b Hb) as Hm.
  nia.
Qed.

Lemma Math_ceil_div_unique (a b c : Z) :
  0 < b -> (c - 1) * b < a <= c * b -> Math_ceil_div a b = c.
Proof.
  intros Hb Hc. pose proof (Math_ceil_div_spec a b Hb) as Hs. nia.
Qed.

Lemma daysUntilExpiry_bounds (target now : Z) :
  (daysUntilExpiry target now - 1) * MS_PER_DAY < target - now
    <= daysUntilExpiry target now * MS_PER_DAY.
Proof. apply Math_ceil_div_spec, MS_PER_DAY_pos. Qed.

(** On a calendar day the evaluator is the difference of the two UTC days. *)
Lemma daysUntilExpiry_date (day now : Z) :
  daysUntilExpiry (dateToMs day) now = day - utcDate now.
Proof.
  unfold daysUntilExpiry, dateToMs, utcDate.
  apply Math_ceil_div_unique; [apply MS_PER_DAY_pos|].
  pose proof (Z.div_mod now MS_PER_DAY ltac:(pose proof MS_PER_DAY_pos; lia)) as Hdm.
  pose proof (Z.mod_pos_bound now MS_PER_DAY MS_PER_DAY_pos) as Hm.
  nia.
Qed.

(** C4.  The days-remaining computation is the ceiling of
    (targetDate - now) / one day: the least integer [d] with
    [targetDate - now <= d] days.  It is negative or zero exactly when the
    target is not after now, that is when it has already expired.  The
    targets of the engine are calendar dates, a [DATE] column or a
    date-only string, read as the [Date] of their UTC midnight: for every
    date [D] the computation equals [D] minus now's UTC calendar date, so
    it is negative if and only if [D] is strictly before now's calendar
    date in UTC. *)
Theorem daysUntilExpiry_characterisation :
  forall (D target now : Z),
    (daysUntilExpiry target now - 1) * MS_PER_DAY < target - now
      <= daysUntilExpiry target now * MS_PER_DAY
    /\ (daysUntilExpiry target now <= 0 <-> target <= now)
    /\ (daysUntilExpiry target now < 0 <-> target + MS_PER_DAY <= now)
    /\ daysUntilExpiry (dateToMs D) now = D - utcDate now
    /\ (daysUntilExpiry (dateToMs D) now < 0 <-> D < utcDate now).
Proof.
  intros D target now.
  pose proof (daysUntilExpiry_bounds target now) as Hb.
  pose proof MS_PER_DAY_pos as Hp.
  split; [exact Hb|].
  split; [split; intros Hle; nia|].
  split; [split; intros Hle; nia|].
  split; [apply daysUntilExpiry_date|].
  rewrite daysUntilExpiry_date. lia.
Qed.

(* ===================================================================== *)
(** * Properties of the certificate prober *)
(* ===================================================================== *)

Lemma two_paths_same_status (validUntil now : Z) :
  https_status validUntil now = tls_status validUntil now.
Proof. reflexivity. Qed.

Lemma https_status_cases (validUntil now : Z) :
  (validUntil < now /\ https_status validUntil now = "expired")
  \/ (now <= validUntil < now + THIRTY_DAYS_MS
      /\ https_status validUntil now = "expiring_soon")
  \/ (now + THIRTY_DAYS_MS <= validUntil /\ https_status validUntil now = "valid").
Proof.
  unfold https_status.
  destruct (Z.ltb_spec validUntil now) as [H1 | H1].
  - left. split; [assumption | reflexivity].
  - destruct (Z.ltb_spec validUntil (now + THIRTY_DAYS_MS)) as [H2 | H2].
    + right; left. split; [lia | reflexivity].
    + right; right. split; [lia | reflexivity].
Qed.

Ltac by_status_cases v n :=
  destruct (https_status_cases v n) as [[Hc He] | [[Hc He] | [Hc He]]];
  rewrite He; unfold THIRTY_DAYS_MS in *;
  split; intros Hx; try discriminate; try lia; try reflexivity.

Lemma https_status_expired_iff (validUntil now : Z) :
  https_status validUntil now = "expired" <-> validUntil < now.
Proof. by_status_cases validUntil now. Qed.

Lemma https_status_expiring_soon_iff (validUntil now : Z) :
  https_status validUntil now = "expiring_soon"
  <-> now <= validUntil < now + THIRTY_DAYS_MS.
Proof. by_status_cases validUntil now. Qed.

Lemma https_status_valid_iff (validUntil now : Z) :
  https_status validUntil now = "valid"
  <-> ~ validUntil < now /\ ~ now <= validUntil < now + THIRTY_DAYS_MS.
Proof. by_status_cases validUntil now. Qed.

(** C5.  The certificate status is a total function of (validUntil, now):
    'expired' iff validUntil < now, 'expiring_soon' iff
    now <= validUntil < now + 30 days, 'valid' otherwise; the callback of
    the HTTPS request and the callback of the TLS fallback both resolve,
    for a certificate that carries its two dates, with that same status. *)
Theorem certificate_status_classification :
  forall (validUntil now vf : Z) (cn o : option string),
    let cert := {| valid_from := Some vf; valid_to := Some validUntil;
                   issuer_CN := cn; issuer_O := o |} in
    (https_status validUntil now = "expired" <-> validUntil < now)
    /\ (https_status validUntil now = "expiring_soon"
        <-> now <= validUntil < now + 30 * MS_PER_DAY)
    /\ (https_status validUntil now = "valid"
        <-> ~ validUntil < now /\ ~ now <= validUntil < now + 30 * MS_PER_DAY)
    /\ tls_status validUntil now = https_status validUntil now
    /\ (exists info, https_callback (Some cert) now = Resolved info
                     /\ status info = https_status validUntil now)
    /\ (exists info, tls_callback (Some cert) now = Resolved info
                     /\ status info = https_status validUntil now).
Proof.
  intros validUntil now vf cn o cert.
  change (30 * MS_PER_DAY) with THIRTY_DAYS_MS.
  split; [apply https_status_expired_iff|].
  split; [apply https_status_expiring_soon_iff|].
  split; [apply https_status_valid_iff|].
  split; [reflexivity|].
  split; eexists; (split; [reflexivity | reflexivity]).
Qed.

(* ===================================================================== *)
(** * Properties of the reachability prober *)
(* ===================================================================== *)

(** Once the request is issued, every outcome is a boolean: up exactly on
    a response with a status from 200 to 399. *)
Lemma checkDomainUptime_issued (env : Env) (domainName : string) :
  let url := with_protocol domainName in
  let protocol := if String.prefix "https" url then Https else Http in
  (forall e, protocol_get env protocol url <> GetInvalid e) ->
  exists up, checkDomainUptime env domainName = Resolved up
             /\ (up = true <-> exists code, protocol_get env protocol url = GetResponse code
                                            /\ 200 <= code <= 399).
Proof.
  intros url protocol Hissued. unfold checkDomainUptime.
  fold url. fold protocol.
  destruct (protocol_get env protocol url) as [code | e | | e] eqn:Hev.
  - eexists; split; [reflexivity|]. split.
    + intros Hup. exists code. split; [reflexivity|].
      apply andb_true_iff in Hup. destruct Hup as [H1 H2].
      apply Z.leb_le in H1. apply Z.ltb_lt in H2. lia.
    + intros [code' [Heq Hrange]]. inversion Heq; subst code'.
      apply andb_true_iff. split; [apply Z.leb_le | apply Z.ltb_lt]; lia.
  - exists false. split; [reflexivity|]. split; [discriminate|].
    intros [code [Heq _]]. discriminate.
  - exists false. split; [reflexivity|]. split; [discriminate|].
    intros [code [Heq _]]. discriminate.
  - exfalso. apply (Hissued e). reflexivity.
Qed.

(** C6.  The probe of the domain name [httpbin.org]: the name starts with
    [http], so no scheme is prepended; the request constructor throws on
    the scheme-less URL inside the promise executor and the promise is
    rejected, whatever the network would have answered. *)
Theorem checkDomainUptime_rejects_httpbin_org :
  forall env : Env,
    checkDomainUptime env "httpbin.org" = Rejected (JS.TypeError "ERR_INVALID_URL").
Proof. intros env. reflexivity. Qed.

(* ===================================================================== *)
(** * Failure of the certificate prober *)
(* ===================================================================== *)

(** When the handshake fails, that is when the HTTPS request errors and the
    socket of the TLS fallback errors with [e], the promise of the prober
    rejects with [e] itself: the [catch] that returns [null] only guards
    what is thrown before the promise is returned.  The detailed check,
    which awaits the prober inside its own [try], returns [null]. *)
Lemma checkSSLCertificate_rejects_with_transport_error :
  forall (env : Env) (domain hostname : string) (now : Z) (e1 e : JS.error),
    url_scheme (with_protocol domain) <> None ->
    url_hostname env (with_protocol domain) = Some hostname ->
    https_request env hostname = HttpsError e1 ->
    tls_connect env hostname = TlsError e ->
    checkSSLCertificate env domain now = Rejected e
    /\ getDetailedSSLCertificate env domain now = Resolved None.
Proof.
  intros env domain hostname now e1 e Hscheme Hhost Hhttps Htls.
  assert (Hprobe : checkSSLCertificate env domain now = Rejected e).
  { unfold checkSSLCertificate.
    destruct (url_scheme (with_protocol domain)) as [sch|]; [|congruence].
    rewrite Hhost, Hhttps. unfold checkWithTLS. rewrite Htls. reflexivity. }
  split; [exact Hprobe|].
  unfold getDetailedSSLCertificate. rewrite Hprobe. reflexivity.
Qed.

(** C7.  On a host that refuses the HTTPS request and the TLS fallback,
    the prober hands its caller the error object of the transport: no
    typed failure, and not the [null] with which it reports that no
    certificate is available.  Its [catch], which returns that [null], is
    not reached, because the promise is returned without [await].  The
    sibling paths do return [null]: the detailed check on the same host,
    which awaits inside its [try], and the prober itself on a name whose
    URL does not parse. *)
Theorem checkSSLCertificate_propagates_raw_error :
  https_request Scenario.refused_env "example.com"
    = HttpsError (JS.TransportError "ECONNREFUSED")
  /\ tls_connect Scenario.refused_env "example.com"
     = TlsError (JS.TransportError "ECONNREFUSED")
  /\ checkSSLCertificate Scenario.refused_env "example.com" Scenario.eight_oclock
     = Rejected (JS.TransportError "ECONNREFUSED")
  /\ getDetailedSSLCertificate Scenario.refused_env "example.com"
       Scenario.eight_oclock
     = Resolved None
  /\ checkSSLCertificate Scenario.refused_env "httpbin.org" Scenario.eight_oclock
     = Resolved None.
Proof. repeat split. Qed.

(* ===================================================================== *)
(** * Properties of the notification dispatcher *)
(* ===================================================================== *)

Lemma email_block_object (env : Env) (fields : list (string * JS.value))
  (name : JS.value) (w : World) :
  email_block env (JS.Obj fields) name w =
    if JS.truthy (JS.lookup "email" fields) then
      (Normal [outcome_of "email" (smtp_send env (JS.lookup "email" fields))],
       after_attempt {| via := "email"; recipient := JS.lookup "email" fields;
                        about := name |}
                     "Email sending failed:"
                     (smtp_send env (JS.lookup "email" fields)) w)
    else (Normal [], w).
Proof.
  unfold email_block, prop, bind, try_catch, sendEmailAlert, record_attempt,
    console_error, throw, ret, bind, after_attempt, outcome_of.
  simpl.
  destruct (JS.truthy (JS.lookup "email" fields)); [|reflexivity].
  destruct (smtp_send env (JS.lookup "email" fields)); reflexivity.
Qed.

Lemma sms_block_object (env : Env) (fields : list (string * JS.value))
  (name : JS.value) (w : World) :
  sms_block env (JS.Obj fields) name w =
    if JS.truthy (JS.lookup "phone" fields) then
      (Normal [outcome_of "sms" (twilio_send env (JS.lookup "phone" fields))],
       after_attempt {| via := "sms"; recipient := JS.lookup "phone" fields;
                        about := name |}
                     "SMS sending failed:"
                     (twilio_send env (JS.lookup "phone" fields)) w)
    else (Normal [], w).
Proof.
  unfold sms_block, prop, bind, try_catch, sendSMSAlert, record_attempt,
    console_error, throw, ret, bind, after_attempt, outcome_of.
  simpl.
  destruct (JS.truthy (JS.lookup "phone" fields)); [|reflexivity].
  destruct (twilio_send env (JS.lookup "phone" fields)); reflexivity.
Qed.

(** A number has neither an [email] nor a [phone]: both blocks are skipped. *)
Lemma email_block_number (env : Env) (n : Z) (name : JS.value) (w : World) :
  email_block env (JS.Num n) name w = (Normal [], w).
Proof. reflexivity. Qed.

Lemma sms_block_number (env : Env) (n : Z) (name : JS.value) (w : World) :
  sms_block env (JS.Num n) name w = (Normal [], w).
Proof. reflexivity. Qed.

Lemma outbox_after_attempt (a : Attempt) (log : string) (r : TransportResult)
  (w : World) :
  outbox (after_attempt a log r w) = outbox w ++ [a].
Proof. destruct r; reflexivity. Qed.

(** Both channels attempted: the dispatcher's exact result. *)
Lemma sendDomainExpiryAlert_both (env : Env)
  (dfields ufields : list (string * JS.value)) (days : JS.value) (w : World) :
  JS.truthy (JS.lookup "email" ufields) = true ->
  JS.truthy (JS.lookup "phone" ufields) = true ->
  let name := JS.lookup "domain_name" dfields in
  let to_e := JS.lookup "email" ufields in
  let to_s := JS.lookup "phone" ufields in
  sendDomainExpiryAlert env (JS.Obj dfields) (JS.Obj ufields) days w =
    (Normal [outcome_of "email" (smtp_send env to_e);
             outcome_of "sms" (twilio_send env to_s)],
     after_attempt {| via := "sms"; recipient := to_s; about := name |}
       "SMS sending failed:" (twilio_send env to_s)
       (after_attempt {| via := "email"; recipient := to_e; about := name |}
          "Email sending failed:" (smtp_send env to_e) w)).
Proof.
  intros He Hp name to_e to_s.
  unfold sendDomainExpiryAlert, bind at 1 2 3. simpl.
  unfold bind at 1. rewrite email_block_object, He.
  unfold bind at 1. rewrite sms_block_object, Hp.
  reflexivity.
Qed.

(** On objects the three dispatchers run the same two channel blocks with
    the same domain name. *)
Lemma dispatchers_agree (env : Env)
  (dfields cfields ufields : list (string * JS.value)) (days x : JS.value)
  (w : World) :
  sendSSLExpiryAlert env (JS.Obj dfields) (JS.Obj cfields) (JS.Obj ufields) days w
    = sendDomainExpiryAlert env (JS.Obj dfields) (JS.Obj ufields) days w
  /\ sendDomainDowntimeAlert env (JS.Obj dfields) (JS.Obj ufields) x w
     = sendDomainExpiryAlert env (JS.Obj dfields) (JS.Obj ufields) days w.
Proof. split; reflexivity. Qed.

(** C2.  A dispatch with both channels attempted (the recipient has an
    email address and a phone number) returns exactly two outcomes, the
    email one then the SMS one, each determined by its own transport
    alone; both transports are called, the email one first, whatever
    either of them does.  In particular, if the email send throws and the
    SMS send succeeds the result is one failure record for email and one
    success record for SMS, and conversely.  The SSL and the downtime
    dispatcher, given a recipient, do the same. *)
Theorem sendDomainExpiryAlert_channel_isolation :
  forall (env : Env) (dfields ufields : list (string * JS.value))
         (days : JS.value) (w : World),
    JS.truthy (JS.lookup "email" ufields) = true ->
    JS.truthy (JS.lookup "phone" ufields) = true ->
    let run := sendDomainExpiryAlert env (JS.Obj dfields) (JS.Obj ufields) days w in
    let name := JS.lookup "domain_name" dfields in
    let to_e := JS.lookup "email" ufields in
    let to_s := JS.lookup "phone" ufields in
    fst run = Normal [outcome_of "email" (smtp_send env to_e);
                      outcome_of "sms" (twilio_send env to_s)]
    /\ outbox (snd run)
       = outbox w ++ [ {| via := "email"; recipient := to_e; about := name |};
                       {| via := "sms"; recipient := to_s; about := name |} ]
    /\ (forall e, smtp_send env to_e = Some e -> twilio_send env to_s = None ->
          fst run = Normal [ {| method := "email"; result := "failed";
                                error := Some (JS.message e) |};
                             {| method := "sms"; result := "success";
                                error := None |} ])
    /\ (forall e, smtp_send env to_e = None -> twilio_send env to_s = Some e ->
          fst run = Normal [ {| method := "email"; result := "success";
                                error := None |};
                             {| method := "sms"; result := "failed";
                                error := Some (JS.message e) |} ])
    /\ (forall cfields,
          sendSSLExpiryAlert env (JS.Obj dfields) (JS.Obj cfields) (JS.Obj ufields)
            days w = run)
    /\ (forall x,
          sendDomainDowntimeAlert env (JS.Obj dfields) (JS.Obj ufields) x w = run).
Proof.
  intros env dfields ufields days w He Hp run name to_e to_s.
  assert (Hrun := sendDomainExpiryAlert_both env dfields ufields days w He Hp).
  cbv zeta in Hrun. fold name to_e to_s in Hrun. fold run in Hrun.
  assert (Hfst : fst run = Normal [outcome_of "email" (smtp_send env to_e);
                                   outcome_of "sms" (twilio_send env to_s)])
    by (rewrite Hrun; reflexivity).
  split; [exact Hfst|].
  split.
  { rewrite Hrun. cbn [snd].
    rewrite !outbox_after_attempt, <- app_assoc. reflexivity. }
  split; [intros e H1 H2; rewrite Hfst, H1, H2; reflexivity|].
  split; [intros e H1 H2; rewrite Hfst, H1, H2; reflexivity|].
  split.
  - intros cfields.
    apply (dispatchers_agree env dfields cfields ufields days JS.Undefined w).
  - intros x. apply (dispatchers_agree env dfields [] ufields days x w).
Qed.

Lemma sendDomainExpiryAlert_channel_isolation_witness :
  fst (sendDomainExpiryAlert Scenario.smtp_down_env
         (domain_record (Scenario.example_com, Scenario.alice))
         (domain_record (Scenario.example_com, Scenario.alice))
         (JS.Num 10) (Scenario.world [Scenario.example_com] [] [] []))
  = Normal [ {| method := "email"; result := "failed";
                error := Some "SMTP configuration not set" |};
             {| method := "sms"; result := "success"; error := None |} ].
Proof.
  pose proof (sendDomainExpiryAlert_channel_isolation Scenario.smtp_down_env
           (match domain_record (Scenario.example_com, Scenario.alice) with
            | JS.Obj f => f | _ => [] end)
           (match domain_record (Scenario.example_com, Scenario.alice) with
            | JS.Obj f => f | _ => [] end)
           (JS.Num 10) (Scenario.world [Scenario.example_com] [] [] [])
           eq_refl eq_refl) as H.
  destruct H as [_ [_ [H _]]].
  apply (H (JS.Error "SMTP configuration not set")); reflexivity.
Defined.

(** A recipient without a phone number is skipped on the SMS channel: no
    call of the transport, no outcome record. *)
Lemma sms_block_skips_missing_phone (env : Env) (r : domains.row * users.row)
  (name : JS.value) (w : World) :
  users.phone (snd r) = None ->
  sms_block env (domain_record r) name w = (Normal [], w).
Proof.
  destruct r as [d u]. simpl. intros Hphone.
  unfold domain_record, JS.row_object. simpl.
  rewrite sms_block_object. simpl. rewrite Hphone. reflexivity.
Qed.

(** C8.  A domain-expiry rule created with SMS disabled (the default of
    the route) for a recipient who has a phone number: the dispatcher is
    handed the rule's flags in the row and does not read them; the SMS
    transport is called and, as it fails here, a failed outcome record is
    produced for the disabled channel. *)
Theorem disabled_sms_channel_is_attempted :
  let r := (Scenario.example_com, Scenario.alice,
            Scenario.rule 1 7 "domain_expiry" 30) in
  let w := Scenario.world [Scenario.example_com] [] [snd r] [] in
  alerts.sms_enabled (snd r) = false
  /\ JS.get (expiring_domain_record r) "sms_enabled" = inl (JS.Bool false)
  /\ fst (sendDomainExpiryAlert Scenario.refused_env (expiring_domain_record r)
            (expiring_domain_record r) (JS.Num 10) w)
     = Normal [ {| method := "email"; result := "success"; error := None |};
                {| method := "sms"; result := "failed";
                   error := Some "Twilio configuration not set" |} ]
  /\ outbox (exec (checkAndSendAlerts Scenario.refused_env) w)
     = [ {| via := "email"; recipient := JS.Str "alice@example.org";
            about := JS.Str "example.com" |};
         {| via := "sms"; recipient := JS.Str "+15550100";
            about := JS.Str "example.com" |} ].
Proof. repeat split. Qed.

(* ===================================================================== *)
(** * What a computation leaves untouched *)
(* ===================================================================== *)

Section Keeps.
Context {B : Type} (f : World -> B).

Lemma keeps_ret {A} (a : A) : keeps f (ret a).
Proof. intros w. reflexivity. Qed.

Lemma keeps_throw {A} (e : JS.error) : keeps f (@throw A e).
Proof. intros w. reflexivity. Qed.

Lemma keeps_bind {A C} (m : M A) (k : A -> M C) :
  keeps f m -> (forall a, keeps f (k a)) -> keeps f (bind m k).
Proof.
  intros Hm Hk w. unfold bind. specialize (Hm w).
  destruct (m w) as [[a | e] w']; simpl in *.
  - rewrite Hk. exact Hm.
  - exact Hm.
Qed.

Lemma keeps_try_catch {A} (m : M A) (h : JS.error -> M A) :
  keeps f m -> (forall e, keeps f (h e)) -> keeps f (try_catch m h).
Proof.
  intros Hm Hh w. unfold try_catch. specialize (Hm w).
  destruct (m w) as [[a | e] w']; simpl in *.
  - exact Hm.
  - rewrite Hh. exact Hm.
Qed.

Lemma keeps_for_of {A} (l : list A) (body : A -> M unit) :
  (forall x, keeps f (body x)) -> keeps f (for_of l body).
Proof.
  intros Hbody. induction l as [| x rest IH]; simpl.
  - apply keeps_ret.
  - apply keeps_bind; [apply Hbody | intros _; exact IH].
Qed.

Lemma keeps_await {A} (p : Promise A) : keeps f (await p).
Proof. destruct p; intros w; reflexivity. Qed.

Lemma keeps_prop (v : JS.value) (k : string) : keeps f (prop v k).
Proof. unfold prop. destruct (JS.get v k); intros w; reflexivity. Qed.

Lemma keeps_now : keeps f now.
Proof. intros w. reflexivity. Qed.

Lemma keeps_if {A} (b : bool) (m1 m2 : M A) :
  keeps f m1 -> keeps f m2 -> keeps f (if b then m1 else m2).
Proof. destruct b; auto. Qed.

(** A query keeps [f] when [f] ignores the fault oracle and the query's
    own effect. *)
Lemma keeps_pool_query {A} (q : World -> A * World) :
  (forall w r, f (with_db_faults r w) = f w) ->
  (forall w, f (snd (q w)) = f w) ->
  keeps f (pool_query q).
Proof.
  intros Hfaults Hq w. unfold pool_query.
  destruct (db_faults w) as [| [|] rest]; simpl.
  - specialize (Hq w). destruct (q w). exact Hq.
  - apply Hfaults.
  - specialize (Hq (with_db_faults rest w)).
    destruct (q (with_db_faults rest w)). simpl in *.
    rewrite Hq. apply Hfaults.
Qed.

(** The INSERT with its references keeps what the row it writes and
    the fault oracle leave alone. *)
Lemma keeps_insert_notification_log_checked (uid did : Z) (ty mth st : string) :
  (forall w r, f (with_db_faults r w) = f w) ->
  (forall w, f (insert_notification_log uid did ty mth st w) = f w) ->
  keeps f (insert_notification_log_checked uid did ty mth st).
Proof.
  intros Hfaults Hinsert. unfold insert_notification_log_checked.
  apply keeps_bind.
  - apply keeps_pool_query; [exact Hfaults|]. intros w.
    destruct (references_hold uid did w); [apply Hinsert | reflexivity].
  - intros [|]; [apply keeps_ret | apply keeps_throw].
Qed.

End Keeps.

(** With a number in the place of the recipient, the SSL dispatcher calls
    no transport, whatever its other arguments. *)
Lemma keeps_outbox_sendSSLExpiryAlert_number (env : Env)
  (domain sslCert fourth : JS.value) (n : Z) :
  keeps outbox (sendSSLExpiryAlert env domain sslCert (JS.Num n) fourth).
Proof.
  unfold sendSSLExpiryAlert.
  repeat (apply keeps_bind; [apply keeps_prop | intros ?]).
  apply keeps_bind; [intros w; reflexivity | intros ?].
  apply keeps_bind; [intros w; reflexivity | intros ?].
  apply keeps_ret.
Qed.

(** One step of a proof that a computation keeps a component: follow the
    structure of the code down to its primitives. *)
Ltac keeps_step :=
  match goal with
  | |- keeps _ (bind _ _) => apply keeps_bind; [| intros ?]
  | |- keeps _ (try_catch _ _) => apply keeps_try_catch; [| intros ?]
  | |- keeps _ (for_of _ _) => apply keeps_for_of; intros ?
  | |- keeps _ (ret _) => apply keeps_ret
  | |- keeps _ (throw _) => apply keeps_throw
  | |- keeps _ (await _) => apply keeps_await
  | |- keeps _ (prop _ _) => apply keeps_prop
  | |- keeps _ now => apply keeps_now
  | |- keeps _ (select _) => apply keeps_pool_query; reflexivity
  | |- keeps _ (execute _) => apply keeps_pool_query; reflexivity
  | |- keeps _ (insert_notification_log_checked _ _ _ _ _) =>
      apply keeps_insert_notification_log_checked; reflexivity
  | |- keeps _ (elapse _) => intros ?; reflexivity
  | |- keeps _ (console_error _ _) => intros ?; reflexivity
  | |- keeps _ (record_attempt _) => intros ?; reflexivity
  | |- keeps outbox (sendSSLExpiryAlert _ _ _ (JS.Num _) _) =>
      apply keeps_outbox_sendSSLExpiryAlert_number
  | |- keeps _ (sendDomainExpiryAlert _ _ _ _) => unfold sendDomainExpiryAlert
  | |- keeps _ (sendSSLExpiryAlert _ _ _ _ _) => unfold sendSSLExpiryAlert
  | |- keeps _ (sendDomainDowntimeAlert _ _ _ _) => unfold sendDomainDowntimeAlert
  | |- keeps _ (email_block _ _ _) => unfold email_block
  | |- keeps _ (sms_block _ _ _) => unfold sms_block
  | |- keeps _ (sendEmailAlert _ _ _) => unfold sendEmailAlert
  | |- keeps _ (sendSMSAlert _ _ _) => unfold sendSMSAlert
  | |- keeps _ (if _ then _ else _) => apply keeps_if
  | |- keeps _ (match ?x with _ => _ end) => destruct x
  end.

Lemma keeps_outbox_ssl_iteration (env : Env)
  (record : domains.row * ssl_certificates.row * users.row) :
  keeps outbox (ssl_iteration env record).
Proof. unfold ssl_iteration, ssl_body. repeat keeps_step. Qed.

Lemma keeps_outbox_performSSLMonitoring (env : Env) :
  keeps outbox (performSSLMonitoring env).
Proof.
  unfold performSSLMonitoring.
  repeat keeps_step. apply keeps_outbox_ssl_iteration.
Qed.

Lemma keeps_outbox_expiring_ssl_iteration (env : Env)
  (record : domains.row * ssl_certificates.row * users.row * alerts.row) :
  keeps outbox (expiring_ssl_iteration env record).
Proof. unfold expiring_ssl_iteration. repeat keeps_step. Qed.

(** The sweeps never write the clock: it moves only where time is let
    pass. *)
Lemma keeps_clock_checkAndSendAlerts (env : Env) :
  keeps clock (checkAndSendAlerts env).
Proof.
  unfold checkAndSendAlerts, expiring_domain_iteration, expiring_ssl_iteration.
  repeat keeps_step.
Qed.

Lemma keeps_clock_performDailyMonitoring (env : Env) :
  keeps clock (performDailyMonitoring env).
Proof.
  unfold performDailyMonitoring, daily_iteration, daily_body.
  repeat keeps_step.
Qed.

Lemma keeps_clock_performSSLMonitoring (env : Env) :
  keeps clock (performSSLMonitoring env).
Proof.
  unfold performSSLMonitoring, ssl_iteration, ssl_body.
  repeat keeps_step.
Qed.

(* ===================================================================== *)
(** * The ssl_expiry alert path *)
(* ===================================================================== *)

Lemma select_no_fault {A} (q : World -> A) (w : World) :
  db_faults w = [] -> select q w = (Normal (q w), w).
Proof. intros H. unfold select, pool_query. rewrite H. reflexivity. Qed.

Lemma execute_no_fault (u : World -> World) (w : World) :
  db_faults w = [] -> execute u w = (Normal tt, u w).
Proof. intros H. unfold execute, pool_query. rewrite H. reflexivity. Qed.

Lemma nonempty_true {A} (l : list A) : l <> [] -> nonempty l = true.
Proof. destruct l; [congruence | reflexivity]. Qed.

(** Called with three arguments, the days in the place of the recipient:
    the dispatcher returns the empty list and touches nothing. *)
Lemma sendSSLExpiryAlert_three_arguments (env : Env)
  (f1 f2 : list (string * JS.value)) (n : Z) (w : World) :
  sendSSLExpiryAlert env (JS.Obj f1) (JS.Obj f2) (JS.Num n) JS.Undefined w
  = (Normal [], w).
Proof. reflexivity. Qed.

(** [record.id] of the alert sweep's certificate row is the certificate's. *)
Lemma expiring_ssl_record_id (d : domains.row) (s : ssl_certificates.row)
  (u : users.row) (a : alerts.row) :
  JS.get (expiring_ssl_record (d, s, u, a)) "id" = inl (JS.Num (ssl_certificates.id s))
  /\ JS.get (expiring_ssl_record (d, s, u, a)) "user_id"
     = inl (JS.Num (domains.user_id d)).
Proof. split; reflexivity. Qed.

Lemma ssl_body_trigger (env : Env) (d : domains.row) (s : ssl_certificates.row)
  (u : users.row) (info : SSLInfo) (w : World) :
  db_faults w = [] ->
  checkSSLCertificate env (domains.domain_name d) (clock w) = Resolved (Some info) ->
  0 < daysUntilExpiry (dateToMs (validUntil info)) (clock w) <= 30 ->
  matching_alerts "ssl_expiry" (ssl_certificates.domain_id s)
    (daysUntilExpiry (dateToMs (validUntil info)) (clock w)) w <> [] ->
  ssl_body env (d, s, u) w
  = (Normal tt,
     insert_notification_log (domains.user_id d) (ssl_certificates.domain_id s)
       "ssl_expiry" "automated" "sent"
       (update_ssl_certificate info (ssl_certificates.domain_id s) w)).
Proof.
  intros Hfaults Hprobe Hdays Hrule.
  set (w1 := update_ssl_certificate info (ssl_certificates.domain_id s) w).
  assert (Hf1 : db_faults w1 = []) by exact Hfaults.
  unfold ssl_body. unfold bind at 1. unfold now at 1.
  unfold bind at 1. rewrite Hprobe. unfold await, ret at 1.
  unfold bind at 1. rewrite (execute_no_fault _ w Hfaults). fold w1.
  unfold bind at 1. unfold now at 1.
  change (clock w1) with (clock w).
  replace ((daysUntilExpiry (dateToMs (validUntil info)) (clock w) <=? 30)
           && (daysUntilExpiry (dateToMs (validUntil info)) (clock w) >? 0))
    with true
    by (symmetry; apply andb_true_iff; split;
        [apply Z.leb_le | apply Z.gtb_lt]; lia).
  unfold bind at 1. rewrite (select_no_fault _ w1 Hf1).
  change (matching_alerts "ssl_expiry" (ssl_certificates.domain_id s)
            (daysUntilExpiry (dateToMs (validUntil info)) (clock w)) w1)
    with (matching_alerts "ssl_expiry" (ssl_certificates.domain_id s)
            (daysUntilExpiry (dateToMs (validUntil info)) (clock w)) w).
  rewrite (nonempty_true _ Hrule).
  unfold bind at 1.
  change (ssl_record (d, s, u)) with
    (JS.Obj (fold_left (fun o kv => JS.set (fst kv) (snd kv) o)
               (domain_columns d ++ ssl_columns s ++ user_columns u) [])).
  rewrite sendSSLExpiryAlert_three_arguments.
  apply execute_no_fault. exact Hf1.
Qed.

(** The INSERT on a row whose two references hold, and on one that breaks
    a reference. *)
Lemma insert_notification_log_checked_accepted (uid did : Z) (ty mth st : string)
  (w : World) :
  db_faults w = [] ->
  references_hold uid did w = true ->
  insert_notification_log_checked uid did ty mth st w
  = (Normal tt, insert_notification_log uid did ty mth st w).
Proof.
  intros Hfaults Href. unfold insert_notification_log_checked, bind, pool_query.
  rewrite Hfaults, Href. reflexivity.
Qed.

Lemma insert_notification_log_checked_refused (uid did : Z) (ty mth st : string)
  (w : World) :
  db_faults w = [] ->
  references_hold uid did w = false ->
  insert_notification_log_checked uid did ty mth st w
  = (Throw (JS.StorageError "23503"), w).
Proof.
  intros Hfaults Href. unfold insert_notification_log_checked, bind, pool_query.
  rewrite Hfaults, Href. reflexivity.
Qed.

Lemma references_hold_intro (w : World) (d : domains.row) (u : users.row) :
  In d (tbl_domains w) -> In u (tbl_users w) ->
  references_hold (users.id u) (domains.id d) w = true.
Proof.
  intros Hd Hu. unfold references_hold. apply andb_true_iff. split.
  - apply existsb_exists. exists d. split; [exact Hd | apply Z.eqb_refl].
  - apply existsb_exists. exists u. split; [exact Hu | apply Z.eqb_refl].
Qed.

(** The rows of the sweeps' queries carry the [id] and the [user_id] of a
    stored domain joined with its user: an INSERT that passes these two
    satisfies both references. *)
Lemma active_domains_references (w : World) (d : domains.row) (u : users.row) :
  In (d, u) (active_domains w) ->
  references_hold (domains.user_id d) (domains.id d) w = true.
Proof.
  unfold active_domains. intros Hin.
  apply in_flat_map in Hin. destruct Hin as [d' [Hd Hin]].
  apply in_map_iff in Hin. destruct Hin as [u' [Heq Hu]].
  inversion Heq; subst d' u'.
  apply filter_In in Hd. destruct Hd as [Hd _].
  apply filter_In in Hu. destruct Hu as [Hu Hid].
  apply Z.eqb_eq in Hid. rewrite <- Hid.
  apply references_hold_intro; assumption.
Qed.

Lemma active_ssl_references (w : World) (d : domains.row)
  (s : ssl_certificates.row) (u : users.row) :
  In (d, s, u) (active_ssl w) ->
  references_hold (domains.user_id d) (ssl_certificates.domain_id s) w = true.
Proof.
  unfold active_ssl. intros Hin.
  apply in_flat_map in Hin. destruct Hin as [d' [Hd Hin]].
  apply in_flat_map in Hin. destruct Hin as [s' [Hs Hin]].
  apply in_map_iff in Hin. destruct Hin as [u' [Heq Hu]].
  inversion Heq; subst d' s' u'.
  apply filter_In in Hd. destruct Hd as [Hd _].
  apply filter_In in Hs. destruct Hs as [_ Hjoin].
  apply filter_In in Hu. destruct Hu as [Hu Hid].
  apply Z.eqb_eq in Hid. apply Z.eqb_eq in Hjoin. rewrite <- Hid, Hjoin.
  apply references_hold_intro; assumption.
Qed.

Lemma expiring_domains_references (w : World) (d : domains.row) (u : users.row)
  (a : alerts.row) :
  In (d, u, a) (expiring_domains w) ->
  references_hold (domains.user_id d) (domains.id d) w = true.
Proof.
  unfold expiring_domains. intros Hin.
  apply in_flat_map in Hin. destruct Hin as [d' [Hd Hin]].
  apply in_flat_map in Hin. destruct Hin as [u' [Hu Hin]].
  apply in_map_iff in Hin. destruct Hin as [a' [Heq Ha]].
  inversion Heq; subst d' u' a'.
  apply filter_In in Hd. destruct Hd as [Hd _].
  apply filter_In in Hu. destruct Hu as [Hu Hid].
  apply Z.eqb_eq in Hid. rewrite <- Hid.
  apply references_hold_intro; assumption.
Qed.

(** A trigger of the alert sweep's certificate loop: the dispatcher does
    nothing and the iteration ends in the INSERT keyed on [record.id]. *)
Lemma expiring_ssl_iteration_trigger (env : Env) (d : domains.row)
  (s : ssl_certificates.row) (u : users.row) (a : alerts.row) (day : Z)
  (w : World) :
  db_faults w = [] ->
  ssl_certificates.valid_until s = Some day ->
  daysUntilExpiry (dateToMs day) (clock w) <= alerts.days_before_expiry a ->
  recent_notifications "ssl_expiry" (ssl_certificates.id s) w = [] ->
  expiring_ssl_iteration env (d, s, u, a) w
  = insert_notification_log_checked (domains.user_id d) (ssl_certificates.id s)
      "ssl_expiry" "automated" "sent" w.
Proof.
  intros Hfaults Hday Hdays Hrecent.
  unfold expiring_ssl_iteration. unfold bind at 1. unfold now at 1.
  rewrite Hday.
  replace (daysUntilExpiry (dateToMs day) (clock w) <=? alerts.days_before_expiry a)
    with true by (symmetry; apply Z.leb_le; exact Hdays).
  unfold bind at 1. rewrite (select_no_fault _ w Hfaults), Hrecent.
  cbn [List.length Nat.eqb].
  unfold bind at 1.
  change (expiring_ssl_record (d, s, u, a)) with
    (JS.Obj (fold_left (fun o kv => JS.set (fst kv) (snd kv) o)
               (domain_columns d ++ ssl_columns s ++ user_columns u
                  ++ alert_columns a) [])).
  rewrite sendSSLExpiryAlert_three_arguments.
  reflexivity.
Qed.

(** X23.  Every ssl_expiry trigger calls the four-parameter dispatcher
    with three arguments, the number of days where the recipient belongs:
    the dispatcher returns the empty outcome list, and no run of the SSL
    sweep or of the alert sweep's certificate loop ever calls a transport.
    In the SSL sweep the trigger, on a row of the sweep's query, still
    appends a 'sent' entry under the certificate's domain; both references
    of that entry hold on every such row.  In the alert sweep the entry is keyed on the
    certificate's own id: it is appended when that number is the id of
    some domain, and otherwise the INSERT is refused, nothing is logged
    and the iteration throws. *)
Theorem ssl_expiry_dispatch_reaches_no_channel :
  forall (env : Env) (w : World),
    db_faults w = [] ->
    (forall (f1 f2 : list (string * JS.value)) (n : Z) (w' : World),
        sendSSLExpiryAlert env (JS.Obj f1) (JS.Obj f2) (JS.Num n) JS.Undefined w'
        = (Normal [], w'))
    /\ (forall d s u info,
          In (d, s, u) (active_ssl w) ->
          checkSSLCertificate env (domains.domain_name d) (clock w)
            = Resolved (Some info) ->
          0 < daysUntilExpiry (dateToMs (validUntil info)) (clock w) <= 30 ->
          matching_alerts "ssl_expiry" (ssl_certificates.domain_id s)
            (daysUntilExpiry (dateToMs (validUntil info)) (clock w)) w <> [] ->
          let w' := exec (ssl_body env (d, s, u)) w in
          outbox w' = outbox w
          /\ tbl_notification_logs w'
             = tbl_notification_logs w ++
                 [ {| notification_logs.user_id := domains.user_id d;
                      notification_logs.domain_id := ssl_certificates.domain_id s;
                      notification_logs.type := "ssl_expiry";
                      notification_logs.method := "automated";
                      notification_logs.status := "sent";
                      notification_logs.sent_at := clock w |} ])
    /\ (forall d s u,
          In (d, s, u) (active_ssl w) ->
          references_hold (domains.user_id d) (ssl_certificates.domain_id s) w = true)
    /\ (forall d s u a day,
          ssl_certificates.valid_until s = Some day ->
          daysUntilExpiry (dateToMs day) (clock w) <= alerts.days_before_expiry a ->
          recent_notifications "ssl_expiry" (ssl_certificates.id s) w = [] ->
          let run := expiring_ssl_iteration env (d, s, u, a) w in
          outbox (snd run) = outbox w
          /\ (references_hold (domains.user_id d) (ssl_certificates.id s) w = true ->
              fst run = Normal tt
              /\ tbl_notification_logs (snd run)
                 = tbl_notification_logs w ++
                     [ {| notification_logs.user_id := domains.user_id d;
                          notification_logs.domain_id := ssl_certificates.id s;
                          notification_logs.type := "ssl_expiry";
                          notification_logs.method := "automated";
                          notification_logs.status := "sent";
                          notification_logs.sent_at := clock w |} ])
          /\ (references_hold (domains.user_id d) (ssl_certificates.id s) w = false ->
              fst run = Throw (JS.StorageError "23503")
              /\ tbl_notification_logs (snd run) = tbl_notification_logs w))
    /\ outbox (exec (performSSLMonitoring env) w) = outbox w
    /\ (forall rows, outbox (exec (for_of rows (expiring_ssl_iteration env)) w)
                     = outbox w).
Proof.
  intros env w Hfaults.
  split; [intros; apply sendSSLExpiryAlert_three_arguments|].
  split.
  { intros d s u info _ Hprobe Hdays Hrule w'. subst w'. unfold exec.
    rewrite (ssl_body_trigger env d s u info w Hfaults Hprobe Hdays Hrule).
    split; reflexivity. }
  split; [intros d s u; apply active_ssl_references|].
  split.
  { intros d s u a day Hday Hdays Hrecent run.
    assert (Hrun : run = insert_notification_log_checked (domains.user_id d)
                           (ssl_certificates.id s) "ssl_expiry" "automated" "sent" w).
    { subst run.
      apply (expiring_ssl_iteration_trigger env d s u a day w Hfaults Hday
               Hdays Hrecent). }
    clearbody run.
    split; [| split].
    - rewrite Hrun. apply keeps_insert_notification_log_checked; reflexivity.
    - intros Href. rewrite Hrun.
      rewrite (insert_notification_log_checked_accepted _ _ _ _ _ w Hfaults Href).
      split; reflexivity.
    - intros Href. rewrite Hrun.
      rewrite (insert_notification_log_checked_refused _ _ _ _ _ w Hfaults Href).
      split; reflexivity. }
  split.
  - apply keeps_outbox_performSSLMonitoring.
  - intros rows. apply keeps_for_of. intros r.
    apply keeps_outbox_expiring_ssl_iteration.
Qed.


Lemma ssl_expiry_dispatch_reaches_no_channel_witness :
  let w := Scenario.world [Scenario.example_com] [Scenario.example_com_cert]
             [Scenario.rule 2 7 "ssl_expiry" 30] [] in
  let record := (Scenario.example_com, Scenario.example_com_cert, Scenario.alice) in
  outbox (exec (ssl_body Scenario.serving_env record) w) = outbox w
  /\ tbl_notification_logs (exec (ssl_body Scenario.serving_env record) w)
     = [ {| notification_logs.user_id := 1; notification_logs.domain_id := 7;
            notification_logs.type := "ssl_expiry";
            notification_logs.method := "automated";
            notification_logs.status := "sent";
            notification_logs.sent_at := Scenario.eight_oclock |} ].
Proof.
  intros w record.
  destruct (ssl_expiry_dispatch_reaches_no_channel Scenario.serving_env w eq_refl)
    as [_ [Hsweep _]].
  apply (Hsweep Scenario.example_com Scenario.example_com_cert Scenario.alice
           {| issuer := "R3"; validFrom := 20; validUntil := 120;
              status := "expiring_soon" |}).
  - simpl. left. reflexivity.
  - reflexivity.
  - vm_compute. split; [reflexivity | discriminate].
  - vm_compute. discriminate.
Defined.

(** C9.  A certificate row with id 3 for the domain with id 7, an
    ssl_expiry rule, twenty days to go and no domain with id 3.  The alert
    sweep selects the row and calls the dispatcher with three arguments,
    which reaches no channel; the INSERT that should append the 'sent'
    entry passes [record.id], the certificate's id, as [domain_id], the
    storage refuses it, and the sweep ends in its handler with nothing
    logged.  The SSL sweep, on the same world, passes [record.domain_id]
    and appends the entry under domain 7. *)
Theorem alert_sweep_loses_ssl_expiry_entry :
  let rule := Scenario.rule 2 7 "ssl_expiry" 30 in
  let w := Scenario.world [Scenario.example_com] [Scenario.example_com_cert]
             [rule] [] in
  let record := (Scenario.example_com, Scenario.example_com_cert, Scenario.alice,
                 rule) in
  let w_alert := exec (checkAndSendAlerts Scenario.refused_env) w in
  let w_ssl := exec (performSSLMonitoring Scenario.serving_env) w in
  expiring_ssl w = [record]
  /\ JS.get (expiring_ssl_record record) "id" = inl (JS.Num 3)
  /\ JS.get (expiring_ssl_record record) "domain_id" = inl (JS.Num 7)
  /\ references_hold 1 3 w = false
  /\ outbox w_alert = []
  /\ tbl_notification_logs w_alert = []
  /\ console w_alert = [("Alert checking error:", JS.StorageError "23503")]
  /\ outbox w_ssl = []
  /\ tbl_notification_logs w_ssl
     = [ {| notification_logs.user_id := 1; notification_logs.domain_id := 7;
            notification_logs.type := "ssl_expiry";
            notification_logs.method := "automated";
            notification_logs.status := "sent";
            notification_logs.sent_at := Scenario.eight_oclock |} ].
Proof. repeat split. Qed.

(* ===================================================================== *)
(** * When an alert can fire *)
(* ===================================================================== *)

Lemma in_sql_window_days (day : Z) (w : World) :
  in_sql_window day w = true ->
  0 < daysUntilExpiry (dateToMs day) (clock w) <= 30.
Proof.
  unfold in_sql_window. intros H.
  apply andb_true_iff in H. destruct H as [H1 H2].
  apply Z.leb_le in H1. apply Z.gtb_lt in H2.
  rewrite daysUntilExpiry_date. lia.
Qed.

Lemma thirty_day_guard (days : Z) :
  (days <=? 30) && (days >? 0) = true <-> 0 < days <= 30.
Proof.
  rewrite andb_true_iff, Z.leb_le, Z.gtb_lt. lia.
Qed.

Lemma not_fires {A} (m : M A) (w : World) :
  outbox (exec m w) = outbox w ->
  tbl_notification_logs (exec m w) = tbl_notification_logs w ->
  ~ fires m w.
Proof. intros Ho Hl [H | H]; contradiction. Qed.

(** Outside the thirty-day guard the daily iteration neither dispatches
    nor logs. *)
Lemma daily_body_outside_guard (env : Env) (domain : domains.row * users.row)
  (w : World) :
  ~ 0 < daysUntilExpiry (dateToMs (domains.expiry_date (fst domain))) (clock w) <= 30 ->
  ~ fires (daily_body env domain) w.
Proof.
  intros Hout.
  assert (Hguard : forall d, d = daysUntilExpiry
                               (dateToMs (domains.expiry_date (fst domain))) (clock w) ->
                             (d <=? 30) && (d >? 0) = false).
  { intros d ->. apply not_true_iff_false. rewrite thirty_day_guard. exact Hout. }
  assert (Hrun : daily_body env domain w
                 = (if daysUntilExpiry (dateToMs (domains.expiry_date (fst domain)))
                         (clock w) <=? 0
                    then execute (mark_expired (domains.id (fst domain)))
                    else ret tt) w).
  { unfold daily_body. unfold bind at 1. unfold now at 1.
    rewrite (Hguard _ eq_refl). reflexivity. }
  apply not_fires; unfold exec; rewrite Hrun.
  - apply (keeps_if outbox); repeat keeps_step.
  - apply (keeps_if tbl_notification_logs); repeat keeps_step.
Qed.

(** Unless the probe yields a certificate inside the guard, the SSL
    iteration neither dispatches nor logs. *)
Lemma ssl_body_fires (env : Env)
  (record : domains.row * ssl_certificates.row * users.row) (w : World) :
  fires (ssl_body env record) w ->
  exists info,
    checkSSLCertificate env (domains.domain_name (fst (fst record))) (clock w)
      = Resolved (Some info)
    /\ 0 < daysUntilExpiry (dateToMs (validUntil info)) (clock w) <= 30.
Proof.
  destruct record as [[d s] u]. cbn [fst].
  intros Hfires.
  destruct (checkSSLCertificate env (domains.domain_name d) (clock w))
    as [[info |] | e] eqn:Hprobe.
  - exists info. split; [reflexivity|].
    destruct ((daysUntilExpiry (dateToMs (validUntil info)) (clock w) <=? 30)
              && (daysUntilExpiry (dateToMs (validUntil info)) (clock w) >? 0))
      eqn:Hguard.
    + apply thirty_day_guard. exact Hguard.
    + exfalso. revert Hfires.
      assert (Hrun : ssl_body env (d, s, u) w
                     = execute (update_ssl_certificate info
                                  (ssl_certificates.domain_id s)) w).
      { unfold ssl_body. unfold bind at 1. unfold now at 1.
        unfold bind at 1. rewrite Hprobe. unfold await, ret at 1.
        unfold bind at 1.
        assert (Hclock : keeps clock (execute (update_ssl_certificate info
                                        (ssl_certificates.domain_id s))))
          by repeat keeps_step.
        specialize (Hclock w).
        destruct (execute (update_ssl_certificate info
                             (ssl_certificates.domain_id s)) w)
          as [[[] | e] w1]; [| reflexivity].
        simpl in Hclock.
        unfold bind at 1. unfold now at 1. rewrite Hclock, Hguard. reflexivity. }
      apply not_fires; unfold exec; rewrite Hrun.
      * assert (H : keeps outbox (execute (update_ssl_certificate info
                                     (ssl_certificates.domain_id s))))
          by repeat keeps_step.
        apply H.
      * assert (H : keeps tbl_notification_logs
                      (execute (update_ssl_certificate info
                                  (ssl_certificates.domain_id s))))
          by repeat keeps_step.
        apply H.
  - exfalso. revert Hfires. apply not_fires; unfold exec, ssl_body;
      unfold bind at 1; unfold now at 1; unfold bind at 1; rewrite Hprobe;
      reflexivity.
  - exfalso. revert Hfires. apply not_fires; unfold exec, ssl_body;
      unfold bind at 1; unfold now at 1; unfold bind at 1; rewrite Hprobe;
      reflexivity.
Qed.

Lemma expiring_domains_in_window (w : World) (d : domains.row) (u : users.row)
  (a : alerts.row) :
  In (d, u, a) (expiring_domains w) ->
  in_sql_window (domains.expiry_date d) w = true
  /\ alerts.type a = "domain_expiry".
Proof.
  unfold expiring_domains. intros Hin.
  apply in_flat_map in Hin. destruct Hin as [d' [Hd Hin]].
  apply in_flat_map in Hin. destruct Hin as [u' [Hu Hin]].
  apply in_map_iff in Hin. destruct Hin as [a' [Heq Ha]].
  inversion Heq; subst d' u' a'.
  apply filter_In in Hd. destruct Hd as [_ Hd].
  apply andb_true_iff in Hd. destruct Hd as [Hwin _].
  apply filter_In in Ha. destruct Ha as [_ Ha].
  apply andb_true_iff in Ha. destruct Ha as [_ Hty].
  apply String.eqb_eq in Hty. split; assumption.
Qed.

Lemma expiring_ssl_in_window (w : World) (d : domains.row)
  (s : ssl_certificates.row) (u : users.row) (a : alerts.row) :
  In (d, s, u, a) (expiring_ssl w) ->
  exists day, ssl_certificates.valid_until s = Some day
              /\ in_sql_window day w = true.
Proof.
  unfold expiring_ssl. intros Hin.
  apply in_flat_map in Hin. destruct Hin as [d' [Hd Hin]].
  apply in_flat_map in Hin. destruct Hin as [s' [Hs Hin]].
  apply in_flat_map in Hin. destruct Hin as [u' [Hu Hin]].
  apply in_map_iff in Hin. destruct Hin as [a' [Heq Ha]].
  inversion Heq; subst d' s' u' a'.
  apply filter_In in Hs. destruct Hs as [_ Hs].
  apply andb_true_iff in Hs. destruct Hs as [_ Hwin].
  destruct (ssl_certificates.valid_until s) as [day |]; [| discriminate].
  exists day. split; [reflexivity | exact Hwin].
Qed.

Lemma utcDate_mono (t1 t2 : Z) : t1 <= t2 -> utcDate t1 <= utcDate t2.
Proof.
  intros H. unfold utcDate. apply Z.div_le_mono; [apply MS_PER_DAY_pos | exact H].
Qed.

(** A day inside the query's window, seen from a later instant: the upper
    bound stays, the lower bound lasts until the day itself begins. *)
Lemma in_sql_window_later (day : Z) (w : World) (t : Z) :
  in_sql_window day w = true ->
  clock w <= t ->
  daysUntilExpiry (dateToMs day) t <= 30
  /\ (0 < daysUntilExpiry (dateToMs day) t <-> utcDate t < day)
  /\ (utcDate t = utcDate (clock w) -> 0 < daysUntilExpiry (dateToMs day) t).
Proof.
  unfold in_sql_window. intros Hwin Hlater.
  apply andb_true_iff in Hwin. destruct Hwin as [H1 H2].
  apply Z.leb_le in H1. apply Z.gtb_lt in H2.
  pose proof (utcDate_mono (clock w) t Hlater) as Hmono.
  rewrite daysUntilExpiry_date. lia.
Qed.

(** Beyond the threshold of its rule an iteration of the alert-matching
    sweep neither dispatches nor logs. *)
Lemma expiring_domain_iteration_fires (env : Env) (d : domains.row)
  (u : users.row) (a : alerts.row) (w : World) :
  fires (expiring_domain_iteration env (d, u, a)) w ->
  daysUntilExpiry (dateToMs (domains.expiry_date d)) (clock w)
    <= alerts.days_before_expiry a.
Proof.
  intros Hfires.
  destruct (Z_le_dec (daysUntilExpiry (dateToMs (domains.expiry_date d)) (clock w))
              (alerts.days_before_expiry a)) as [Hle | Hgt]; [exact Hle|].
  exfalso. revert Hfires.
  assert (Hrun : expiring_domain_iteration env (d, u, a) w = (Normal tt, w)).
  { unfold expiring_domain_iteration. unfold bind at 1. unfold now at 1.
    replace (daysUntilExpiry (dateToMs (domains.expiry_date d)) (clock w)
               <=? alerts.days_before_expiry a)
      with false by (symmetry; apply Z.leb_gt; lia).
    reflexivity. }
  apply not_fires; unfold exec; rewrite Hrun; reflexivity.
Qed.

Lemma expiring_ssl_iteration_fires (env : Env) (d : domains.row)
  (s : ssl_certificates.row) (u : users.row) (a : alerts.row) (day : Z)
  (w : World) :
  ssl_certificates.valid_until s = Some day ->
  fires (expiring_ssl_iteration env (d, s, u, a)) w ->
  daysUntilExpiry (dateToMs day) (clock w) <= alerts.days_before_expiry a.
Proof.
  intros Hday Hfires.
  destruct (Z_le_dec (daysUntilExpiry (dateToMs day) (clock w))
              (alerts.days_before_expiry a)) as [Hle | Hgt]; [exact Hle|].
  exfalso. revert Hfires.
  assert (Hrun : expiring_ssl_iteration env (d, s, u, a) w = (Normal tt, w)).
  { unfold expiring_ssl_iteration. unfold bind at 1. unfold now at 1.
    rewrite Hday.
    replace (daysUntilExpiry (dateToMs day) (clock w)
               <=? alerts.days_before_expiry a)
      with false by (symmetry; apply Z.leb_gt; lia).
    reflexivity. }
  apply not_fires; unfold exec; rewrite Hrun; reflexivity.
Qed.

(** X24.  Whatever the threshold of the rule, no alert fires while more
    than 30 days remain.  The daily sweep and the SSL sweep dispatch and
    log only inside their guard 0 < daysUntilExpiry <= 30, applied to the
    number they have just computed.  A row selected by a query of the
    alert-matching sweep has at most 30 days left at any later instant at
    which the loop handles it; it has more than 0 days left exactly as
    long as the UTC day of that instant is before the expiry day, so in
    particular when the row is handled on the UTC day of the query; and
    the iteration that handles it fires only when that number is within
    the threshold of the rule.  Rule creation nevertheless accepts every
    threshold from 1 to 90. *)
Theorem alerts_never_fire_beyond_thirty_days :
  forall (env : Env) (w : World),
    (forall domain,
        fires (daily_body env domain) w ->
        0 < daysUntilExpiry (dateToMs (domains.expiry_date (fst domain))) (clock w)
          <= 30)
    /\ (forall record,
          fires (ssl_body env record) w ->
          exists info,
            checkSSLCertificate env (domains.domain_name (fst (fst record))) (clock w)
              = Resolved (Some info)
            /\ 0 < daysUntilExpiry (dateToMs (validUntil info)) (clock w) <= 30)
    /\ (forall d u a (w1 : World),
          In (d, u, a) (expiring_domains w) ->
          clock w <= clock w1 ->
          let days := daysUntilExpiry (dateToMs (domains.expiry_date d)) (clock w1) in
          days <= 30
          /\ (0 < days <-> utcDate (clock w1) < domains.expiry_date d)
          /\ (utcDate (clock w1) = utcDate (clock w) -> 0 < days)
          /\ (fires (expiring_domain_iteration env (d, u, a)) w1 ->
              days <= alerts.days_before_expiry a))
    /\ (forall d s u a (w1 : World),
          In (d, s, u, a) (expiring_ssl w) ->
          clock w <= clock w1 ->
          exists day,
            ssl_certificates.valid_until s = Some day
            /\ daysUntilExpiry (dateToMs day) (clock w1) <= 30
            /\ (0 < daysUntilExpiry (dateToMs day) (clock w1)
                <-> utcDate (clock w1) < day)
            /\ (utcDate (clock w1) = utcDate (clock w) ->
                0 < daysUntilExpiry (dateToMs day) (clock w1))
            /\ (fires (expiring_ssl_iteration env (d, s, u, a)) w1 ->
                daysUntilExpiry (dateToMs day) (clock w1)
                  <= alerts.days_before_expiry a))
    /\ (forall n, valid_daysBeforeExpiry (Some n) = Some n <-> 1 <= n <= 90).
Proof.
  intros env w.
  split.
  { intros domain Hfires.
    destruct (Z_lt_dec 0 (daysUntilExpiry
                (dateToMs (domains.expiry_date (fst domain))) (clock w)));
      destruct (Z_le_dec (daysUntilExpiry
                  (dateToMs (domains.expiry_date (fst domain))) (clock w)) 30);
      try (split; assumption);
      exfalso; revert Hfires; apply daily_body_outside_guard; lia. }
  split; [exact (fun record => ssl_body_fires env record w)|].
  split.
  { intros d u a w1 Hin Hlater days. subst days.
    destruct (in_sql_window_later (domains.expiry_date d) w (clock w1))
      as [Hupper [Hlower Hsame]];
      [apply (expiring_domains_in_window w d u a Hin) | exact Hlater |].
    repeat split; try assumption; try apply Hlower.
    apply expiring_domain_iteration_fires. }
  split.
  { intros d s u a w1 Hin Hlater.
    destruct (expiring_ssl_in_window w d s u a Hin) as [day [Hday Hwin]].
    exists day. split; [exact Hday|].
    destruct (in_sql_window_later day w (clock w1) Hwin Hlater)
      as [Hupper [Hlower Hsame]].
    repeat split; try assumption; try apply Hlower.
    apply expiring_ssl_iteration_fires. exact Hday. }
  intros n. unfold valid_daysBeforeExpiry.
  destruct ((1 <=? n) && (n <=? 90)) eqn:Hrange.
  - apply andb_true_iff in Hrange. rewrite Z.leb_le, Z.leb_le in Hrange.
    split; [intros _; exact Hrange | reflexivity].
  - split; [discriminate|]. intros H.
    apply andb_false_iff in Hrange. rewrite !Z.leb_gt in Hrange. lia.
Qed.


Lemma alerts_never_fire_beyond_thirty_days_witness :
  let rule90 := Scenario.rule 1 7 "domain_expiry" 90 in
  let w := Scenario.world [Scenario.example_com] [] [rule90] [] in
  daysUntilExpiry (dateToMs (domains.expiry_date Scenario.example_com))
    Scenario.nine_oclock <= 30
  /\ 0 < daysUntilExpiry
           (dateToMs (domains.expiry_date (fst (Scenario.example_com, Scenario.alice))))
           (clock w) <= 30.
Proof.
  intros rule90 w.
  destruct (alerts_never_fire_beyond_thirty_days Scenario.refused_env w)
    as [Hdaily [_ [Hquery _]]].
  split.
  - destruct (Hquery Scenario.example_com Scenario.alice rule90
                (with_clock Scenario.nine_oclock w)) as [Hupper _].
    + simpl. left. reflexivity.
    + vm_compute. discriminate.
    + exact Hupper.
  - apply (Hdaily (Scenario.example_com, Scenario.alice)).
    left. vm_compute. discriminate.
Defined.

(** When no time passes, the timed sweep is the sweep. *)
Lemma elapse_zero (w : World) : elapse 0 w = (Normal tt, w).
Proof. unfold elapse. rewrite Z.add_0_r. destruct w. reflexivity. Qed.

Lemma checkAndSendAlerts_timed_zero (env : Env) (w : World) :
  checkAndSendAlerts_timed env 0 w = checkAndSendAlerts env w.
Proof.
  unfold checkAndSendAlerts_timed, checkAndSendAlerts, try_catch, bind.
  destruct (select expiring_domains w) as [[rows | e] w1]; [| reflexivity].
  rewrite elapse_zero.
  destruct (for_of rows (expiring_domain_iteration env) w1) as [[[] | e] w2];
    [| reflexivity].
  destruct (select expiring_ssl w2) as [[rows' | e] w3]; [| reflexivity].
  rewrite elapse_zero. reflexivity.
Qed.

(** C10.  A domain that expires on day 101 and a domain_expiry rule.  The
    first query of the alert-matching sweep runs half a second before the
    UTC midnight that begins day 101 and selects the domain, which is
    still inside the window [expiry_date > CURRENT_DATE]; the loop reads
    the clock again one second later, computes 0 days and tests them
    against the threshold only: both transports are called and the entry
    is logged although 0 < daysUntilExpiry does not hold.  The daily
    sweep's iteration, at that same instant, applies its guard to the
    number it computed: it sends nothing, logs nothing and marks the
    domain expired. *)
Theorem alert_sweep_fires_at_zero_days :
  let rule30 := Scenario.rule 1 9 "domain_expiry" 30 in
  let w := with_clock Scenario.before_midnight
             (Scenario.world [Scenario.example_org] [] [rule30] []) in
  let w_alert := exec (checkAndSendAlerts_timed Scenario.refused_env 1000) w in
  let w_daily := exec (daily_body Scenario.refused_env
                         (Scenario.example_org, Scenario.alice))
                   (with_clock (clock w + 1000) w) in
  expiring_domains w = [(Scenario.example_org, Scenario.alice, rule30)]
  /\ utcDate (clock w) = 100
  /\ utcDate (Scenario.before_midnight + 1000) = 101
  /\ daysUntilExpiry (dateToMs (domains.expiry_date Scenario.example_org))
       (Scenario.before_midnight + 1000) = 0
  /\ map via (outbox w_alert) = ["email"; "sms"]
  /\ tbl_notification_logs w_alert
     = [ {| notification_logs.user_id := 1; notification_logs.domain_id := 9;
            notification_logs.type := "domain_expiry";
            notification_logs.method := "automated";
            notification_logs.status := "sent";
            notification_logs.sent_at := Scenario.before_midnight + 1000 |} ]
  /\ outbox w_daily = []
  /\ tbl_notification_logs w_daily = []
  /\ map domains.status (tbl_domains w_daily) = ["expired"].
Proof. repeat split. Qed.

(* ===================================================================== *)
(** * Sweep isolation *)
(* ===================================================================== *)

Lemma for_of_app {A} (l1 l2 : list A) (body : A -> M unit) (w : World) :
  for_of (l1 ++ l2) body w = (for_of l1 body ;; for_of l2 body) w.
Proof.
  revert w. induction l1 as [| x rest IH]; intros w; simpl.
  - reflexivity.
  - unfold bind. destruct (body x w) as [[[] | e] w']; [| reflexivity].
    rewrite IH. reflexivity.
Qed.

Section Isolation.
Context {A : Type} (body : A -> M unit) (label : A -> string).

Lemma guarded_returns (x : A) (w : World) :
  fst (guarded body label x w) = Normal tt.
Proof.
  unfold guarded, try_catch. destruct (body x w) as [[[] | e] w']; reflexivity.
Qed.

(** A body that throws is logged, and the world it left is kept. *)
Lemma guarded_logs (x : A) (w w' : World) (e : JS.error) :
  body x w = (Throw e, w') ->
  guarded body label x w = (Normal tt, with_console (console w' ++ [(label x, e)]) w').
Proof. intros H. unfold guarded, try_catch. rewrite H. reflexivity. Qed.

Lemma for_of_guarded_returns (l : list A) (w : World) :
  fst (for_of l (guarded body label) w) = Normal tt.
Proof.
  revert w. induction l as [| x rest IH]; intros w; simpl.
  - reflexivity.
  - unfold bind. pose proof (guarded_returns x w) as Hx.
    destruct (guarded body label x w) as [[[] | e] w']; simpl in Hx.
    + apply IH.
    + discriminate.
Qed.

(** Whatever happens to a target, the loop goes on to the targets after
    it, from the world that target left. *)
Lemma for_of_guarded_continues (before after : list A) (x : A) (w : World) :
  for_of (before ++ x :: after) (guarded body label) w
  = for_of after (guarded body label)
      (exec (guarded body label x) (exec (for_of before (guarded body label)) w)).
Proof.
  rewrite for_of_app. unfold bind at 1. unfold exec.
  pose proof (for_of_guarded_returns before w) as Hb.
  destruct (for_of before (guarded body label) w) as [[[] | e] w1]; simpl in Hb;
    [| discriminate].
  simpl. unfold bind at 1.
  pose proof (guarded_returns x w1) as Hx.
  destruct (guarded body label x w1) as [[[] | e] w2]; simpl in Hx; [| discriminate].
  reflexivity.
Qed.

End Isolation.

(** The three sweeps with a [try] inside their loop: an error on one
    target is logged for that target and the targets after it are still
    processed. *)
Lemma daily_sweep_isolation (env : Env)
  (before after : list (domains.row * users.row)) (x : domains.row * users.row)
  (w : World) :
  for_of (before ++ x :: after) (daily_iteration env) w
  = for_of after (daily_iteration env)
      (exec (daily_iteration env x) (exec (for_of before (daily_iteration env)) w))
  /\ forall w0 w' e, daily_body env x w0 = (Throw e, w') ->
       console (exec (daily_iteration env x) w0)
       = console w' ++ [(String.append "Error monitoring domain "
                           (domains.domain_name (fst x)), e)].
Proof.
  split.
  - apply (for_of_guarded_continues (daily_body env)).
  - intros w0 w' e H. unfold exec, daily_iteration, try_catch. rewrite H.
    reflexivity.
Qed.

Lemma ssl_sweep_isolation (env : Env)
  (before after : list (domains.row * ssl_certificates.row * users.row))
  (x : domains.row * ssl_certificates.row * users.row) (w : World) :
  for_of (before ++ x :: after) (ssl_iteration env) w
  = for_of after (ssl_iteration env)
      (exec (ssl_iteration env x) (exec (for_of before (ssl_iteration env)) w)).
Proof. apply (for_of_guarded_continues (ssl_body env)). Qed.

Lemma uptime_sweep_isolation (env : Env)
  (before after : list (domains.row * users.row)) (x : domains.row * users.row)
  (w : World) :
  for_of (before ++ x :: after) (uptime_iteration env) w
  = for_of after (uptime_iteration env)
      (exec (uptime_iteration env x) (exec (for_of before (uptime_iteration env)) w)).
Proof. apply (for_of_guarded_continues (uptime_body env)). Qed.

(** In a loop without a [try], a throwing iteration ends the loop. *)
Lemma for_of_throw {A} (body : A -> M unit) (x : A) (rest : list A)
  (w w' : World) (e : JS.error) :
  body x w = (Throw e, w') ->
  for_of (x :: rest) body w = (Throw e, w').
Proof. intros H. simpl. unfold bind. rewrite H. reflexivity. Qed.

(** C3.  Two expiring targets and a storage fault on the first one's
    query.  The alert-matching sweep has no [try] inside its loop: the
    error reaches the handler of the whole sweep and the second target,
    [example.com], is never processed.  The daily sweep, on the same
    world, logs the error for [example.net] and goes on to alert
    [example.com], as the alert-matching sweep itself does when no query
    fails. *)
Theorem alert_sweep_aborts_on_first_failure :
  let rules := [Scenario.rule 1 8 "domain_expiry" 30;
                Scenario.rule 2 7 "domain_expiry" 30] in
  let targets := [Scenario.example_net; Scenario.example_com] in
  let w := Scenario.world targets [] rules [false; true] in
  let w_alert := exec (checkAndSendAlerts Scenario.refused_env) w in
  let w_daily := exec (performDailyMonitoring Scenario.refused_env) w in
  let w_sound := exec (checkAndSendAlerts Scenario.refused_env)
                   (Scenario.world targets [] rules []) in
  map (fun r => domains.domain_name (fst (fst r))) (expiring_domains w)
    = ["example.net"; "example.com"]
  /\ console w_alert = [("Alert checking error:", JS.StorageError "query failed")]
  /\ outbox w_alert = []
  /\ tbl_notification_logs w_alert = []
  /\ console w_daily
     = [("Error monitoring domain example.net", JS.StorageError "query failed");
        ("SMS sending failed:", JS.Error "Twilio configuration not set")]
  /\ map about (outbox w_daily) = [JS.Str "example.com"; JS.Str "example.com"]
  /\ map notification_logs.domain_id (tbl_notification_logs w_daily) = [7]
  /\ map notification_logs.domain_id (tbl_notification_logs w_sound) = [8; 7].
Proof. repeat split. Qed.

(* ===================================================================== *)
(** * Deduplication *)
(* ===================================================================== *)




(** C1.  Two triggers one hour apart for (example.com, domain_expiry): the
    alert-matching sweep at 08:00 logs one entry; the daily sweep at 09:00
    consults no log, calls both transports again and appends a second
    entry, 23 hours inside the cooldown.  The alert-matching sweep run at
    09:00 instead is suppressed and leaves log and outbox as they were. *)
Theorem daily_sweep_bypasses_deduplication :
  let w0 := Scenario.world [Scenario.example_com] []
              [Scenario.rule 1 7 "domain_expiry" 30] [] in
  let w1 := exec (checkAndSendAlerts Scenario.refused_env) w0 in
  let w2 := exec (performDailyMonitoring Scenario.refused_env)
              (with_clock Scenario.nine_oclock w1) in
  let w2' := exec (checkAndSendAlerts Scenario.refused_env)
               (with_clock Scenario.nine_oclock w1) in
  let key l := (notification_logs.domain_id l, notification_logs.type l,
                notification_logs.sent_at l) in
  map key (tbl_notification_logs w1) = [(7, "domain_expiry", Scenario.eight_oclock)]
  /\ map key (tbl_notification_logs w2)
     = [(7, "domain_expiry", Scenario.eight_oclock);
        (7, "domain_expiry", Scenario.nine_oclock)]
  /\ Scenario.nine_oclock - Scenario.eight_oclock < COOLDOWN_MS
  /\ map via (outbox w1) = ["email"; "sms"]
  /\ map via (outbox w2) = ["email"; "sms"; "email"; "sms"]
  /\ tbl_notification_logs w2' = tbl_notification_logs w1
  /\ outbox w2' = outbox w1.
Proof. repeat split. Qed.

(* ===================================================================== *)
(** * Further properties of the sweeps *)
(* ===================================================================== *)

Lemma guarded_sweep_returns (m : M unit) (msg : string) (w : World) :
  fst (try_catch m (fun e => console_error msg e) w) = Normal tt.
Proof. unfold try_catch. destruct (m w) as [[[] | e] w']; reflexivity. Qed.

Lemma select_fault {A} (q : World -> A) (w : World) (rest : list bool) :
  db_faults w = true :: rest ->
  select q w = (Throw (JS.StorageError "query failed"), with_db_faults rest w).
Proof. intros H. unfold select, pool_query. rewrite H. reflexivity. Qed.

(** A sweep whose first query fails: one console line and nothing else. *)
Lemma sweep_level_failure {A} (q : World -> list A) (body : A -> M unit)
  (msg : string) (w : World) (rest : list bool) :
  db_faults w = true :: rest ->
  try_catch (rows <- select q ;; for_of rows body)
            (fun e => console_error msg e) w
  = (Normal tt,
     with_console (console w ++ [(msg, JS.StorageError "query failed")])
       (with_db_faults rest w)).
Proof.
  intros H. unfold try_catch, bind. rewrite (select_fault q w rest H).
  reflexivity.
Qed.

(** X1.  No sweep ever throws, whatever the storage, the network and the
    transports do; and when the query that loads the targets fails, the
    sweep writes one line to the console, consumes that fault and changes
    nothing else: no table, no transport call. *)
Theorem sweep_failure_is_contained :
  forall (env : Env) (w : World),
    (fst (performDailyMonitoring env w) = Normal tt
     /\ fst (performSSLMonitoring env w) = Normal tt
     /\ fst (performUptimeMonitoring env w) = Normal tt
     /\ fst (checkAndSendAlerts env w) = Normal tt)
    /\ forall rest,
         db_faults w = true :: rest ->
         let failed_with msg :=
           with_console (console w ++ [(msg, JS.StorageError "query failed")])
             (with_db_faults rest w) in
         exec (performDailyMonitoring env) w = failed_with "Daily monitoring error:"
         /\ exec (performSSLMonitoring env) w = failed_with "SSL monitoring error:"
         /\ exec (performUptimeMonitoring env) w = failed_with "Uptime monitoring error:"
         /\ exec (checkAndSendAlerts env) w = failed_with "Alert checking error:".
Proof.
  intros env w. split.
  - repeat split; apply guarded_sweep_returns.
  - intros rest Hfault failed_with. unfold exec.
    unfold performDailyMonitoring, performSSLMonitoring, performUptimeMonitoring.
    rewrite !(sweep_level_failure _ _ _ w rest Hfault).
    repeat split.
    unfold checkAndSendAlerts, try_catch. unfold bind at 1.
    rewrite (select_fault _ w rest Hfault). reflexivity.
Qed.

Lemma sweep_failure_is_contained_witness :
  let w := Scenario.world [Scenario.example_com] []
             [Scenario.rule 1 7 "domain_expiry" 30] [true] in
  exec (performDailyMonitoring Scenario.refused_env) w
  = with_console [("Daily monitoring error:", JS.StorageError "query failed")]
      (with_db_faults [] w).
Proof.
  intros w.
  destruct (sweep_failure_is_contained Scenario.refused_env w) as [_ H].
  apply (H [] eq_refl).
Defined.



(** X3.  What the sweeps never write: none of them changes a user or an
    alert rule; the alert-matching sweep and the uptime sweep change no
    domain and no certificate either; the daily sweep changes no
    certificate and the SSL sweep no domain. *)
Theorem sweeps_leave_configuration_alone :
  forall (env : Env),
    (keeps tbl_users (performDailyMonitoring env)
     /\ keeps tbl_alerts (performDailyMonitoring env)
     /\ keeps tbl_ssl_certificates (performDailyMonitoring env))
    /\ (keeps tbl_users (performSSLMonitoring env)
        /\ keeps tbl_alerts (performSSLMonitoring env)
        /\ keeps tbl_domains (performSSLMonitoring env))
    /\ (keeps tbl_users (performUptimeMonitoring env)
        /\ keeps tbl_alerts (performUptimeMonitoring env)
        /\ keeps tbl_domains (performUptimeMonitoring env)
        /\ keeps tbl_ssl_certificates (performUptimeMonitoring env))
    /\ (keeps tbl_users (checkAndSendAlerts env)
        /\ keeps tbl_alerts (checkAndSendAlerts env)
        /\ keeps tbl_domains (checkAndSendAlerts env)
        /\ keeps tbl_ssl_certificates (checkAndSendAlerts env)).
Proof.
  intros env.
  unfold performDailyMonitoring, daily_iteration, daily_body,
    performSSLMonitoring, ssl_iteration, ssl_body,
    performUptimeMonitoring, uptime_iteration, uptime_body,
    checkAndSendAlerts, expiring_domain_iteration, expiring_ssl_iteration.
  repeat split; repeat keeps_step.
Qed.

(* ===================================================================== *)
(** * The notification log only grows *)
(* ===================================================================== *)













(* ===================================================================== *)
(** * Exactly when an iteration fires *)
(* ===================================================================== *)


Lemma nonempty_false {A} (l : list A) : l = [] -> nonempty l = false.
Proof. intros ->. reflexivity. Qed.







(* ===================================================================== *)
(** * The cooldown gate of the alert-matching sweep *)
(* ===================================================================== *)





(* ===================================================================== *)
(** * Overdue domains *)
(* ===================================================================== *)

Section Preserves.
Context (P : World -> Prop).

Lemma preserves_ret {A} (a : A) : preserves P (ret a).
Proof. intros w H. exact H. Qed.

Lemma preserves_throw {A} (e : JS.error) : preserves P (@throw A e).
Proof. intros w H. exact H. Qed.

Lemma preserves_bind {A C} (m : M A) (k : A -> M C) :
  preserves P m -> (forall a, preserves P (k a)) -> preserves P (bind m k).
Proof.
  intros Hm Hk w H. unfold bind. specialize (Hm w H).
  destruct (m w) as [[a | e] w']; simpl in *.
  - apply Hk. exact Hm.
  - exact Hm.
Qed.

Lemma preserves_try_catch {A} (m : M A) (h : JS.error -> M A) :
  preserves P m -> (forall e, preserves P (h e)) -> preserves P (try_catch m h).
Proof.
  intros Hm Hh w H. unfold try_catch. specialize (Hm w H).
  destruct (m w) as [[a | e] w']; simpl in *.
  - exact Hm.
  - apply Hh. exact Hm.
Qed.

Lemma preserves_for_of {A} (l : list A) (body : A -> M unit) :
  (forall x, preserves P (body x)) -> preserves P (for_of l body).
Proof.
  intros Hbody. induction l as [| x rest IH]; simpl.
  - apply preserves_ret.
  - apply preserves_bind; [apply Hbody | intros _; exact IH].
Qed.

Lemma preserves_if {A} (b : bool) (m1 m2 : M A) :
  preserves P m1 -> preserves P m2 -> preserves P (if b then m1 else m2).
Proof. destruct b; auto. Qed.

Lemma preserves_await {A} (p : Promise A) : preserves P (await p).
Proof. destruct p; intros w H; exact H. Qed.

Lemma preserves_prop (v : JS.value) (k : string) : preserves P (prop v k).
Proof. unfold prop. destruct (JS.get v k); intros w H; exact H. Qed.

Lemma preserves_now : preserves P now.
Proof. intros w H. exact H. Qed.

(** A query on a predicate that does not look at the fault oracle. *)
Lemma preserves_pool_query {A} (q : World -> A * World) :
  (forall w r, P w -> P (with_db_faults r w)) ->
  (forall w, P w -> P (snd (q w))) ->
  preserves P (pool_query q).
Proof.
  intros Hfaults Hq w H. unfold pool_query.
  destruct (db_faults w) as [| [|] rest]; simpl.
  - specialize (Hq w H). destruct (q w). exact Hq.
  - apply Hfaults. exact H.
  - specialize (Hq (with_db_faults rest w) (Hfaults w rest H)).
    destruct (q (with_db_faults rest w)). exact Hq.
Qed.

End Preserves.

(** A query that keeps the oracle keeps a fault-free world fault-free. *)
Lemma preserves_fault_free_pool_query {A} (q : World -> A * World) :
  (forall w, db_faults (snd (q w)) = db_faults w) ->
  preserves fault_free (pool_query q).
Proof.
  intros Hq w H. unfold fault_free in *. unfold pool_query. rewrite H.
  specialize (Hq w). destruct (q w). simpl in *. congruence.
Qed.

Ltac preserves_step prim :=
  match goal with
  | |- preserves _ (bind _ _) => apply preserves_bind; [| intros ?]
  | |- preserves _ (try_catch _ _) => apply preserves_try_catch; [| intros ?]
  | |- preserves _ (for_of _ _) => apply preserves_for_of; intros ?
  | |- preserves _ (ret _) => apply preserves_ret
  | |- preserves _ (throw _) => apply preserves_throw
  | |- preserves _ (await _) => apply preserves_await
  | |- preserves _ (prop _ _) => apply preserves_prop
  | |- preserves _ now => apply preserves_now
  | |- preserves _ (select _) => prim
  | |- preserves _ (execute _) => prim
  | |- preserves _ (console_error _ _) => intros ? H; exact H
  | |- preserves _ (record_attempt _) => intros ? H; exact H
  | |- preserves _ (sendDomainExpiryAlert _ _ _ _) => unfold sendDomainExpiryAlert
  | |- preserves _ (email_block _ _ _) => unfold email_block
  | |- preserves _ (sms_block _ _ _) => unfold sms_block
  | |- preserves _ (sendEmailAlert _ _ _) => unfold sendEmailAlert
  | |- preserves _ (sendSMSAlert _ _ _) => unfold sendSMSAlert
  | |- preserves _ (if _ then _ else _) => apply preserves_if
  | |- preserves _ (match ?x with _ => _ end) => destruct x
  end.

Lemma preserves_fault_free_daily_iteration (env : Env)
  (r : domains.row * users.row) :
  preserves fault_free (daily_iteration env r).
Proof.
  unfold daily_iteration, daily_body.
  repeat preserves_step ltac:(apply preserves_fault_free_pool_query; reflexivity).
Qed.

Lemma mark_expired_all_expired (id id' : Z) (w : World) :
  all_expired id w -> all_expired id (mark_expired id' w).
Proof.
  intros H d Hin Hid. unfold mark_expired in Hin. simpl in Hin.
  apply in_map_iff in Hin. destruct Hin as [d0 [Heq Hin0]].
  destruct (domains.id d0 =? id'); subst d.
  - reflexivity.
  - apply (H d0 Hin0 Hid).
Qed.

Lemma preserves_all_expired_daily_iteration (env : Env) (id : Z)
  (r : domains.row * users.row) :
  preserves (all_expired id) (daily_iteration env r).
Proof.
  unfold daily_iteration, daily_body.
  repeat preserves_step
    ltac:(apply preserves_pool_query;
          [intros ? ? H; exact H
          | first [ intros ? H; exact H
                  | intros ? H; apply mark_expired_all_expired; exact H ]]).
Qed.

Lemma keeps_clock_daily_iteration (env : Env) (r : domains.row * users.row) :
  keeps clock (daily_iteration env r).
Proof. unfold daily_iteration, daily_body. repeat keeps_step. Qed.

(** The iteration of an overdue domain marks it expired. *)
Lemma daily_iteration_overdue (env : Env) (d : domains.row) (u : users.row)
  (w : World) :
  fault_free w ->
  domains.expiry_date d <= utcDate (clock w) ->
  daily_iteration env (d, u) w = (Normal tt, mark_expired (domains.id d) w).
Proof.
  intros Hfaults Hdue.
  assert (Hdays : daysUntilExpiry (dateToMs (domains.expiry_date d)) (clock w) <= 0)
    by (rewrite daysUntilExpiry_date; lia).
  unfold daily_iteration, try_catch, daily_body. cbn [fst].
  unfold bind at 1. unfold now at 1.
  replace ((daysUntilExpiry (dateToMs (domains.expiry_date d)) (clock w) <=? 30)
           && (daysUntilExpiry (dateToMs (domains.expiry_date d)) (clock w) >? 0))
    with false
    by (symmetry; apply not_true_iff_false; rewrite thirty_day_guard; lia).
  replace (daysUntilExpiry (dateToMs (domains.expiry_date d)) (clock w) <=? 0)
    with true by (symmetry; apply Z.leb_le; exact Hdays).
  unfold bind at 1. unfold ret at 1.
  rewrite (execute_no_fault _ w Hfaults). reflexivity.
Qed.

Lemma daily_loop_expires (env : Env) (d : domains.row) (u : users.row)
  (rows : list (domains.row * users.row)) (w : World) :
  fault_free w ->
  domains.expiry_date d <= utcDate (clock w) ->
  In (d, u) rows ->
  all_expired (domains.id d) (exec (for_of rows (daily_iteration env)) w).
Proof.
  revert w. induction rows as [| r rest IH]; intros w Hfaults Hdue Hin.
  - contradiction.
  - unfold exec. simpl. unfold bind.
    pose proof (preserves_fault_free_daily_iteration env r w Hfaults) as Hf'.
    pose proof (keeps_clock_daily_iteration env r w) as Hc'.
    pose proof (guarded_returns (daily_body env)
                  (fun x => String.append "Error monitoring domain "
                              (domains.domain_name (fst x))) r w) as Hret.
    change (guarded (daily_body env)
              (fun x => String.append "Error monitoring domain "
                          (domains.domain_name (fst x))) r w)
      with (daily_iteration env r w) in Hret.
    destruct Hin as [Heq | Hin].
    + subst r.
      rewrite (daily_iteration_overdue env d u w Hfaults Hdue).
      apply (preserves_for_of (all_expired (domains.id d)) rest (daily_iteration env)
               (preserves_all_expired_daily_iteration env (domains.id d))).
      intros d' Hin' Hid. unfold mark_expired in Hin'. simpl in Hin'.
      apply in_map_iff in Hin'. destruct Hin' as [d0 [Heq Hin0]].
      destruct (domains.id d0 =? domains.id d) eqn:Hd0; subst d'.
      * reflexivity.
      * apply Z.eqb_neq in Hd0. contradiction.
    + destruct (daily_iteration env r w) as [[[] | e] w'] eqn:Hrun;
        simpl in Hret, Hf', Hc'; [| discriminate].
      apply (IH w'); [exact Hf' | rewrite Hc'; exact Hdue | exact Hin].
Qed.

(** X8.  With no storage fault pending, the daily sweep leaves no overdue
    domain active: every active domain of a known user whose expiry date
    is today (UTC) or earlier has, after the sweep, status 'expired' in
    every row carrying its identifier; and no alert fires for it. *)
Theorem daily_sweep_expires_overdue_domains :
  forall (env : Env) (w : World) (d : domains.row) (u : users.row),
    db_faults w = [] ->
    In (d, u) (active_domains w) ->
    domains.expiry_date d <= utcDate (clock w) ->
    (forall d', In d' (tbl_domains (exec (performDailyMonitoring env) w)) ->
                domains.id d' = domains.id d ->
                domains.status d' = "expired")
    /\ ~ fires (daily_body env (d, u)) w.
Proof.
  intros env w d u Hfaults Hin Hdue. split.
  - assert (Hsweep : exec (performDailyMonitoring env) w
                     = exec (for_of (active_domains w) (daily_iteration env)) w).
    { unfold exec, performDailyMonitoring, try_catch, bind.
      rewrite (select_no_fault _ w Hfaults).
      pose proof (for_of_guarded_returns (daily_body env)
                    (fun x => String.append "Error monitoring domain "
                                (domains.domain_name (fst x)))
                    (active_domains w) w) as Hret.
      change (guarded (daily_body env)
                (fun x => String.append "Error monitoring domain "
                            (domains.domain_name (fst x))))
        with (daily_iteration env) in Hret.
      destruct (for_of (active_domains w) (daily_iteration env) w)
        as [[[] | e] w']; [reflexivity | discriminate]. }
    rewrite Hsweep.
    apply (daily_loop_expires env d u (active_domains w) w Hfaults Hdue Hin).
  - apply daily_body_outside_guard. cbn [fst].
    rewrite daysUntilExpiry_date. lia.
Qed.

Lemma daily_sweep_expires_overdue_domains_witness :
  let overdue := {| domains.id := 5; domains.user_id := 1;
                    domains.domain_name := "lapsed.example";
                    domains.registrar := None; domains.expiry_date := 100;
                    domains.status := "active" |} in
  let w := Scenario.world [Scenario.example_com; overdue] [] [] [] in
  map domains.status (tbl_domains (exec (performDailyMonitoring Scenario.refused_env) w))
  = ["active"; "expired"]
  /\ ~ fires (daily_body Scenario.refused_env (overdue, Scenario.alice)) w.
Proof.
  intros overdue w. split; [reflexivity|].
  apply (daily_sweep_expires_overdue_domains Scenario.refused_env w overdue
           Scenario.alice eq_refl).
  - simpl. right. left. reflexivity.
  - vm_compute. discriminate.
Defined.

(* ===================================================================== *)
(** * Further properties of the two probers *)
(* ===================================================================== *)

Lemma scheme_rest_has_colon (s r : string) :
  scheme_rest s = Some r -> has_colon s = true.
Proof.
  revert r. induction s as [| c rest IH]; intros r H; simpl in *.
  - discriminate.
  - destruct (nat_of_ascii c =? 58)%nat; [reflexivity|]. simpl.
    destruct (is_scheme_char c); [| discriminate].
    destruct (scheme_rest rest) as [r' |]; [| discriminate].
    apply (IH r'). reflexivity.
Qed.

Lemma strip_has_colon (s : string) :
  has_colon (strip_tab_newline s) = true -> has_colon s = true.
Proof.
  induction s as [| c rest IH]; simpl; [auto|].
  destruct (is_tab_or_newline c); simpl.
  - intros H. rewrite (IH H). apply orb_true_r.
  - intros H. apply orb_true_iff in H. apply orb_true_iff.
    destruct H as [H | H]; [left; exact H | right; apply IH; exact H].
Qed.

(** A string without a colon has no scheme. *)
Lemma url_scheme_needs_colon (s : string) :
  has_colon s = false -> url_scheme s = None.
Proof.
  intros Hno. unfold url_scheme.
  destruct (strip_tab_newline s) as [| c rest] eqn:Hs; [reflexivity|].
  destruct (is_alpha c); [| reflexivity].
  destruct (scheme_rest (String c rest)) as [r |] eqn:Hr; [| reflexivity].
  apply scheme_rest_has_colon in Hr. rewrite <- Hs in Hr.
  apply strip_has_colon in Hr. congruence.
Qed.

(** With [https://] prepended, the scheme is always [https]. *)
Lemma url_scheme_https (name : string) :
  url_scheme (String.append "https://" name) = Some "https".
Proof. reflexivity. Qed.

(** X9.  A domain name that does not start with 'http' is probed over
    HTTPS at [https://<name>], by one GET: the probe is up exactly on a
    response with a status from 200 to 399, down on any other response,
    on an error and on a timeout. *)
Theorem checkDomainUptime_prefers_https :
  forall (env : Env) (domainName : string),
    String.prefix "http" domainName = false ->
    checkDomainUptime env domainName
    = match http_get env Https (String.append "https://" domainName) with
      | GetResponse code => Resolved ((200 <=? code) && (code <? 400))
      | GetError _ | GetTimeout => Resolved false
      | GetInvalid e => Rejected e
      end
    /\ (checkDomainUptime env domainName = Resolved true
        <-> exists code,
              http_get env Https (String.append "https://" domainName)
                = GetResponse code
              /\ 200 <= code <= 399).
Proof.
  intros env domainName Hprefix.
  assert (Hrun : checkDomainUptime env domainName
                 = match http_get env Https (String.append "https://" domainName) with
                   | GetResponse code => Resolved ((200 <=? code) && (code <? 400))
                   | GetError _ | GetTimeout => Resolved false
                   | GetInvalid e => Rejected e
                   end).
  { unfold checkDomainUptime, with_protocol. rewrite Hprefix.
    change (String.prefix "https" (String.append "https://" domainName)) with true.
    unfold protocol_get. rewrite url_scheme_https. reflexivity. }
  split; [exact Hrun|]. rewrite Hrun.
  destruct (http_get env Https (String.append "https://" domainName))
    as [code | e | | e].
  - split.
    + intros H. injection H as H. apply andb_true_iff in H. destruct H as [H1 H2].
      apply Z.leb_le in H1. apply Z.ltb_lt in H2.
      exists code. split; [reflexivity | lia].
    + intros [code' [Heq Hrange]]. injection Heq as <-.
      f_equal. apply andb_true_iff. split; [apply Z.leb_le | apply Z.ltb_lt]; lia.
  - split; [discriminate | intros [code [Heq _]]; discriminate].
  - split; [discriminate | intros [code [Heq _]]; discriminate].
  - split; [discriminate | intros [code [Heq _]]; discriminate].
Qed.

Lemma checkDomainUptime_prefers_https_witness :
  checkDomainUptime Scenario.serving_env "example.com" = Resolved true.
Proof.
  apply (checkDomainUptime_prefers_https Scenario.serving_env "example.com" eq_refl).
  exists 200. split; [reflexivity | lia].
Defined.

(** X10.  A stored domain name that starts with 'http' and contains no
    colon gets no scheme prepended and is never put on the network: the
    reachability probe rejects with the URL parser's TypeError, the
    certificate prober returns null and so does the detailed one. *)
Theorem scheme_less_http_names_are_not_probed :
  forall (env : Env) (domainName : string) (now : Z),
    String.prefix "http" domainName = true ->
    has_colon domainName = false ->
    checkDomainUptime env domainName = Rejected (JS.TypeError "ERR_INVALID_URL")
    /\ checkSSLCertificate env domainName now = Resolved None
    /\ getDetailedSSLCertificate env domainName now = Resolved None.
Proof.
  intros env domainName now Hprefix Hcolon.
  pose proof (url_scheme_needs_colon domainName Hcolon) as Hscheme.
  assert (Hssl : checkSSLCertificate env domainName now = Resolved None).
  { unfold checkSSLCertificate, with_protocol. rewrite Hprefix, Hscheme.
    reflexivity. }
  split.
  - unfold checkDomainUptime, with_protocol, protocol_get.
    rewrite Hprefix, Hscheme. reflexivity.
  - split; [exact Hssl|].
    unfold getDetailedSSLCertificate. rewrite Hssl. reflexivity.
Qed.

Lemma scheme_less_http_names_are_not_probed_witness :
  checkSSLCertificate Scenario.serving_env "http-example.com" Scenario.eight_oclock
  = Resolved None.
Proof.
  apply (scheme_less_http_names_are_not_probed Scenario.serving_env
           "http-example.com" Scenario.eight_oclock eq_refl eq_refl).
Defined.

(** Where a resolved certificate object comes from. *)
Lemma checkSSLCertificate_resolved (env : Env) (domain : string) (now : Z)
  (info : SSLInfo) :
  checkSSLCertificate env domain now = Resolved (Some info) ->
  exists vu, validUntil info = utcDate vu /\ status info = https_status vu now.
Proof.
  unfold checkSSLCertificate.
  destruct (url_scheme (with_protocol domain)); [| discriminate].
  destruct (url_hostname env (with_protocol domain)) as [hostname |];
    [| discriminate].
  destruct (https_request env hostname) as [cert | e |].
  - unfold https_callback. destruct cert as [c |]; [| discriminate].
    destruct (valid_from c) as [vf |]; [| discriminate].
    destruct (valid_to c) as [vu |]; [| discriminate].
    intros H. injection H as <-. exists vu. split; reflexivity.
  - unfold checkWithTLS. destruct (tls_connect env hostname) as [cert | e' |];
      [| discriminate | discriminate].
    unfold tls_callback. destruct cert as [c |]; [| discriminate].
    destruct (valid_from c) as [vf |]; [| discriminate].
    destruct (valid_to c) as [vu |]; [| discriminate].
    intros H. injection H as <-. exists vu. split; reflexivity.
  - discriminate.
Qed.

(** X11.  The status the prober reports and the number of days the SSL
    sweep computes from the reported date agree: 'expired' gives at most
    0 days, 'expiring_soon' between 0 and 30, 'valid' at least 30.  So a
    certificate reported 'expired' never passes the sweep's guard
    0 < days <= 30. *)
Theorem certificate_status_bounds_the_days :
  forall (env : Env) (domain : string) (now : Z) (info : SSLInfo),
    checkSSLCertificate env domain now = Resolved (Some info) ->
    let days := daysUntilExpiry (dateToMs (validUntil info)) now in
    (status info = "expired" \/ status info = "expiring_soon"
     \/ status info = "valid")
    /\ (status info = "expired" -> days <= 0)
    /\ (status info = "expiring_soon" -> 0 <= days <= 30)
    /\ (status info = "valid" -> 30 <= days)
    /\ (0 < days <= 30 -> status info <> "expired").
Proof.
  intros env domain now info Hprobe days.
  destruct (checkSSLCertificate_resolved env domain now info Hprobe)
    as [vu [Hdate Hstatus]].
  assert (Hdays : days = utcDate vu - utcDate now)
    by (unfold days; rewrite Hdate; apply daysUntilExpiry_date).
  assert (Hmono : forall a b, a <= b -> utcDate a <= utcDate b)
    by (intros a b Hab; apply Z.div_le_mono; [apply MS_PER_DAY_pos | exact Hab]).
  assert (Hshift : utcDate (now + THIRTY_DAYS_MS) = utcDate now + 30).
  { unfold utcDate. change THIRTY_DAYS_MS with (30 * MS_PER_DAY).
    apply Z.div_add. discriminate. }
  rewrite Hstatus, Hdays.
  destruct (https_status_cases vu now) as [[Hc He] | [[Hc He] | [Hc He]]];
    rewrite He.
  - pose proof (Hmono vu now ltac:(lia)).
    repeat split; try discriminate; try lia; auto.
  - pose proof (Hmono now vu ltac:(lia)).
    pose proof (Hmono vu (now + THIRTY_DAYS_MS) ltac:(lia)).
    repeat split; try discriminate; try lia; auto.
  - pose proof (Hmono (now + THIRTY_DAYS_MS) vu ltac:(lia)).
    repeat split; try discriminate; try lia; auto.
Qed.

Lemma certificate_status_bounds_the_days_witness :
  daysUntilExpiry (dateToMs 120) Scenario.eight_oclock <= 30
  /\ 0 <= daysUntilExpiry (dateToMs 120) Scenario.eight_oclock.
Proof.
  destruct (certificate_status_bounds_the_days Scenario.serving_env "example.com"
              Scenario.eight_oclock
              {| issuer := "R3"; validFrom := 20; validUntil := 120;
                 status := "expiring_soon" |} eq_refl)
    as [_ [_ [H _]]].
  destruct (H eq_refl) as [H0 H30]. split; assumption.
Defined.

(** X12.  The detailed check never rejects: it returns null exactly when
    the prober did not resolve with a certificate, a rejection included.
    Otherwise it carries the prober's object, a number of days equal to
    the reported expiry day minus today's UTC day, and two flags that
    agree with that number: expired implies at most 0 days and expiring
    soon, a negative number of days implies expired, and a certificate
    the prober reports 'expired' is flagged expired. *)
Theorem getDetailedSSLCertificate_is_consistent :
  forall (env : Env) (domain : string) (now : Z),
    (exists r, getDetailedSSLCertificate env domain now = Resolved r)
    /\ (getDetailedSSLCertificate env domain now = Resolved None
        <-> forall info, checkSSLCertificate env domain now <> Resolved (Some info))
    /\ forall r,
         getDetailedSSLCertificate env domain now = Resolved (Some r) ->
         checkSSLCertificate env domain now = Resolved (Some (basicInfo r))
         /\ detail_daysUntilExpiry r = validUntil (basicInfo r) - utcDate now
         /\ (isExpired r = true -> detail_daysUntilExpiry r <= 0)
         /\ (detail_daysUntilExpiry r < 0 -> isExpired r = true)
         /\ (isExpired r = true -> isExpiringSoon r = true)
         /\ (status (basicInfo r) = "expired" -> isExpired r = true).
Proof.
  intros env domain now. unfold getDetailedSSLCertificate.
  destruct (checkSSLCertificate env domain now) as [[info |] | e] eqn:Hprobe.
  - split; [eexists; reflexivity|].
    split; [split; [discriminate | intros H; exfalso; apply (H info); reflexivity]|].
    intros r Hr. injection Hr as <-. cbn.
    pose proof (daysUntilExpiry_date (validUntil info) now) as Hdate.
    pose proof (daysUntilExpiry_bounds (dateToMs (validUntil info)) now) as Hb.
    pose proof MS_PER_DAY_pos as Hp.
    split; [reflexivity|]. split; [exact Hdate|].
    split; [intros H; apply Z.ltb_lt in H; nia|].
    split; [intros H; apply Z.ltb_lt; nia|].
    split; [intros H; apply Z.ltb_lt in H; apply Z.ltb_lt;
            unfold THIRTY_DAYS_MS; lia|].
    intros Hst.
    destruct (checkSSLCertificate_resolved env domain now info Hprobe)
      as [vu [Hday Hstatus]].
    rewrite Hstatus in Hst. apply https_status_expired_iff in Hst.
    apply Z.ltb_lt. rewrite Hday. unfold dateToMs, utcDate.
    pose proof (Z.mul_div_le vu MS_PER_DAY Hp). lia.
  - split; [eexists; reflexivity|].
    split; [split; [intros _ info; discriminate | reflexivity]|].
    intros r Hr. discriminate.
  - split; [eexists; reflexivity|].
    split; [split; [intros _ info; discriminate | reflexivity]|].
    intros r Hr. discriminate.
Qed.

Lemma getDetailedSSLCertificate_is_consistent_witness :
  exists r,
    getDetailedSSLCertificate Scenario.serving_env "example.com"
      Scenario.eight_oclock = Resolved (Some r)
    /\ detail_daysUntilExpiry r = 20.
Proof.
  destruct (getDetailedSSLCertificate_is_consistent Scenario.serving_env
              "example.com" Scenario.eight_oclock) as [_ [_ H]].
  eexists. split; [reflexivity|].
  destruct (H _ eq_refl) as [_ [Hdays _]]. rewrite Hdays. reflexivity.
Defined.

Lemma truthy_of_option (o : option string) :
  JS.truthy (JS.of_option o) = true <-> exists s, o = Some s /\ s <> "".
Proof.
  destruct o as [s |]; simpl.
  - destruct (String.eqb_spec s "") as [-> | Hs]; simpl.
    + split; [discriminate | intros [s [H Hne]]; injection H as <-; congruence].
    + split; [intros _; exists s; split; [reflexivity | exact Hs] | reflexivity].
  - split; [discriminate | intros [s [H _]]; discriminate].
Qed.

Lemma issuer_of_cases (c : PeerCertificate) :
  (exists s, issuer_CN c = Some s /\ s <> "" /\ issuer_of c = s)
  \/ (~ (exists s, issuer_CN c = Some s /\ s <> "")
      /\ exists s, issuer_O c = Some s /\ s <> "" /\ issuer_of c = s)
  \/ (~ (exists s, issuer_CN c = Some s /\ s <> "")
      /\ ~ (exists s, issuer_O c = Some s /\ s <> "")
      /\ issuer_of c = "Unknown").
Proof.
  unfold issuer_of, JS.or.
  destruct (JS.truthy (JS.of_option (issuer_CN c))) eqn:Hcn.
  - left. pose proof (proj1 (truthy_of_option _) Hcn) as [s [H Hne]].
    exists s. rewrite H. simpl.
    destruct (String.eqb_spec s ""); [contradiction|]. simpl. auto.
  - right.
    assert (Hno : ~ (exists s, issuer_CN c = Some s /\ s <> ""))
      by (intros H; apply truthy_of_option in H; congruence).
    destruct (JS.truthy (JS.of_option (issuer_O c))) eqn:Ho.
    + left. split; [exact Hno|].
      pose proof (proj1 (truthy_of_option _) Ho) as [s [H Hne]].
      exists s. rewrite H. simpl.
      destruct (String.eqb_spec s ""); [contradiction|]. simpl. auto.
    + right. split; [exact Hno|]. split.
      * intros H; apply truthy_of_option in H; congruence.
      * reflexivity.
Qed.

(** X13.  The issuer the prober reports is never empty: it is the
    certificate's issuer CN when that is a non-empty string, else its
    issuer O when that is one, else the literal 'Unknown'. *)
Theorem issuer_is_never_empty :
  forall (c : PeerCertificate),
    issuer_of c <> ""
    /\ (forall s, issuer_CN c = Some s -> s <> "" -> issuer_of c = s)
    /\ (forall s, (issuer_CN c = None \/ issuer_CN c = Some "") ->
                  issuer_O c = Some s -> s <> "" -> issuer_of c = s)
    /\ ((issuer_CN c = None \/ issuer_CN c = Some "") ->
        (issuer_O c = None \/ issuer_O c = Some "") ->
        issuer_of c = "Unknown").
Proof.
  intros c.
  assert (Hmissing : forall o : option string,
             o = None \/ o = Some "" -> ~ (exists s, o = Some s /\ s <> "")).
  { intros o [-> | ->] [s [H Hne]]; [discriminate|].
    injection H as <-. congruence. }
  destruct (issuer_of_cases c)
    as [[s [Hcn [Hne Hi]]] | [[Hno [s [Ho [Hne Hi]]]] | [Hno [Hno' Hi]]]].
  - assert (Hhas : exists s, issuer_CN c = Some s /\ s <> "")
      by (exists s; split; assumption).
    split; [congruence|].
    split; [intros s' H _; congruence|].
    split.
    + intros s' Hm _ _. exfalso. apply (Hmissing _ Hm Hhas).
    + intros Hm _. exfalso. apply (Hmissing _ Hm Hhas).
  - assert (Hhas : exists s, issuer_O c = Some s /\ s <> "")
      by (exists s; split; assumption).
    split; [congruence|].
    split; [intros s' H Hs'; exfalso; apply Hno; exists s'; split; assumption|].
    split; [intros s' _ H _; congruence|].
    intros _ Hm. exfalso. apply (Hmissing _ Hm Hhas).
  - split; [rewrite Hi; discriminate|].
    split; [intros s' H Hs'; exfalso; apply Hno; exists s'; split; assumption|].
    split; [intros s' _ H Hs'; exfalso; apply Hno'; exists s'; split; assumption|].
    intros _ _. exact Hi.
Qed.

Lemma issuer_is_never_empty_witness :
  issuer_of {| valid_from := None; valid_to := None;
               issuer_CN := Some ""; issuer_O := Some "Let's Encrypt" |}
  = "Let's Encrypt".
Proof.
  destruct (issuer_is_never_empty
              {| valid_from := None; valid_to := None;
                 issuer_CN := Some ""; issuer_O := Some "Let's Encrypt" |})
    as [_ [_ [H _]]].
  apply H; [right; reflexivity | reflexivity | discriminate].
Defined.

(* ===================================================================== *)
(** * Further properties of the dispatcher *)
(* ===================================================================== *)




(* ===================================================================== *)
(** * The test-alert route *)
(* ===================================================================== *)

Lemma recent_notifications_ignores_test (ty : string) (id uid did : Z)
  (w w' : World) :
  ty <> "test" ->
  clock w' = clock w ->
  tbl_notification_logs w' = tbl_notification_logs w ->
  recent_notifications ty id
    (insert_notification_log uid did "test" "test" "sent" w')
  = recent_notifications ty id w.
Proof.
  intros Hty Hc Hl. unfold recent_notifications.
  replace (tbl_notification_logs
             (insert_notification_log uid did "test" "test" "sent" w'))
    with (tbl_notification_logs w ++
            [ {| notification_logs.user_id := uid;
                 notification_logs.domain_id := did;
                 notification_logs.type := "test";
                 notification_logs.method := "test";
                 notification_logs.status := "sent";
                 notification_logs.sent_at := clock w' |} ])
    by (rewrite <- Hl; reflexivity).
  replace (clock (insert_notification_log uid did "test" "test" "sent" w'))
    with (clock w) by (rewrite <- Hc; reflexivity).
  rewrite filter_app.
  cbn [filter notification_logs.type notification_logs.domain_id
       notification_logs.sent_at].
  destruct (String.eqb_spec "test" ty) as [Heq | Hne]; [congruence|].
  rewrite andb_false_r. cbn [andb]. apply app_nil_r.
Qed.

Lemma method_outcome_of (m : string) (r : TransportResult) :
  method (outcome_of m r) = m.
Proof. destruct r; reflexivity. Qed.

Lemma after_attempt_frame (a : Attempt) (log : string) (r : TransportResult)
  (w : World) :
  db_faults (after_attempt a log r w) = db_faults w
  /\ clock (after_attempt a log r w) = clock w
  /\ tbl_notification_logs (after_attempt a log r w) = tbl_notification_logs w.
Proof. destruct r; repeat split. Qed.

(** The run of the test route for an alert of the caller. *)
Lemma post_alert_test_run (env : Env) (alert_id user_id : Z) (w : World)
  (a : alerts.row) (d : domains.row) (u : users.row)
  (rest : list (alerts.row * domains.row * users.row)) :
  db_faults w = [] ->
  test_alert_rows alert_id user_id w = (a, d, u) :: rest ->
  let name := JS.Str (domains.domain_name d) in
  let to_e := JS.Str (users.email u) in
  let to_s := JS.of_option (users.phone u) in
  let step1 :=
    if alerts.email_enabled a
    then ([outcome_of "email" (smtp_send env to_e)],
          after_attempt {| via := "email"; recipient := to_e; about := name |}
            "Email sending failed:" (smtp_send env to_e) w)
    else ([], w) in
  let step2 :=
    if alerts.sms_enabled a && JS.truthy to_s
    then ([outcome_of "sms" (twilio_send env to_s)],
          after_attempt {| via := "sms"; recipient := to_s; about := name |}
            "SMS sending failed:" (twilio_send env to_s) (snd step1))
    else ([], snd step1) in
  post_alert_test env alert_id user_id w
  = (Normal (200, fst step1 ++ fst step2),
     insert_notification_log user_id (alerts.domain_id a) "test" "test" "sent"
       (snd step2)).
Proof.
  intros Hfaults Hrows name to_e to_s step1 step2.
  assert (Hf2 : db_faults (snd step2) = []).
  { subst step2 step1.
    destruct (alerts.email_enabled a);
      destruct (alerts.sms_enabled a && JS.truthy to_s); cbn [snd];
      repeat rewrite (proj1 (after_attempt_frame _ _ _ _)); exact Hfaults. }
  unfold post_alert_test. unfold try_catch at 1. unfold bind at 1.
  rewrite (select_no_fault _ w Hfaults), Hrows.
  assert (H1 : (if alerts.email_enabled a
                then try_catch
                       (sendEmailAlert env to_e name ;; ret [success "email"])
                       (fun err => ret [failed "email" err])
                else ret []) w = (Normal (fst step1), snd step1)).
  { subst step1. destruct (alerts.email_enabled a); [| reflexivity].
    unfold try_catch, bind, sendEmailAlert, record_attempt, console_error, throw,
      ret, after_attempt, outcome_of.
    cbn. destruct (smtp_send env to_e); reflexivity. }
  assert (H2 : (if alerts.sms_enabled a && JS.truthy to_s
                then try_catch
                       (sendSMSAlert env to_s name ;; ret [success "sms"])
                       (fun err => ret [failed "sms" err])
                else ret []) (snd step1) = (Normal (fst step2), snd step2)).
  { subst step2. destruct (alerts.sms_enabled a && JS.truthy to_s); [| reflexivity].
    unfold try_catch, bind, sendSMSAlert, record_attempt, console_error, throw,
      ret, after_attempt, outcome_of.
    cbn. destruct (twilio_send env to_s); reflexivity. }
  fold name to_e to_s.
  unfold bind at 1. rewrite H1.
  unfold bind at 1. rewrite H2.
  unfold bind at 1. rewrite (execute_no_fault _ _ Hf2). reflexivity.
Qed.

(** X15.  The test-alert route honours the rule's channel flags.  For an
    alert of the caller, with no storage fault pending, it answers 200
    with one outcome per transport call; the email transport is called
    exactly when the rule has email enabled, the SMS transport exactly
    when the rule has SMS enabled and the user has a non-empty phone
    number.  It appends one log entry of type 'test', which never counts
    for the cooldown of a real alert type. *)
Theorem test_alert_honours_channel_flags :
  forall (env : Env) (alert_id user_id : Z) (w : World)
         (a : alerts.row) (d : domains.row) (u : users.row)
         (rest : list (alerts.row * domains.row * users.row)),
    db_faults w = [] ->
    test_alert_rows alert_id user_id w = (a, d, u) :: rest ->
    let run := post_alert_test env alert_id user_id w in
    exists results attempts,
      fst run = Normal (200, results)
      /\ outbox (snd run) = outbox w ++ attempts
      /\ map via attempts = map method results
      /\ (In "email" (map via attempts) <-> alerts.email_enabled a = true)
      /\ (In "sms" (map via attempts)
          <-> alerts.sms_enabled a = true
              /\ exists p, users.phone u = Some p /\ p <> "")
      /\ tbl_notification_logs (snd run)
         = tbl_notification_logs w ++
             [ {| notification_logs.user_id := user_id;
                  notification_logs.domain_id := alerts.domain_id a;
                  notification_logs.type := "test";
                  notification_logs.method := "test";
                  notification_logs.status := "sent";
                  notification_logs.sent_at := clock w |} ]
      /\ (forall ty id, ty <> "test" ->
            recent_notifications ty id (snd run) = recent_notifications ty id w).
Proof.
  intros env alert_id user_id w a d u rest Hfaults Hrows run. subst run.
  pose proof (post_alert_test_run env alert_id user_id w a d u rest Hfaults Hrows)
    as Hrun.
  cbv zeta in Hrun. rewrite Hrun. clear Hrun. cbn [fst snd].
  pose proof (truthy_of_option (users.phone u)) as Hphone.
  set (att_e := {| via := "email"; recipient := JS.Str (users.email u);
                   about := JS.Str (domains.domain_name d) |}).
  set (att_s := {| via := "sms"; recipient := JS.of_option (users.phone u);
                   about := JS.Str (domains.domain_name d) |}).
  exists ((if alerts.email_enabled a
           then [outcome_of "email" (smtp_send env (JS.Str (users.email u)))]
           else [])
          ++ (if alerts.sms_enabled a && JS.truthy (JS.of_option (users.phone u))
              then [outcome_of "sms"
                      (twilio_send env (JS.of_option (users.phone u)))]
              else [])),
         ((if alerts.email_enabled a then [att_e] else [])
          ++ (if alerts.sms_enabled a && JS.truthy (JS.of_option (users.phone u))
              then [att_s] else [])).
  assert (Hlog : forall w0 : World,
             clock w0 = clock w ->
             tbl_notification_logs w0 = tbl_notification_logs w ->
             tbl_notification_logs
               (insert_notification_log user_id (alerts.domain_id a)
                  "test" "test" "sent" w0)
             = tbl_notification_logs w ++
                 [ {| notification_logs.user_id := user_id;
                      notification_logs.domain_id := alerts.domain_id a;
                      notification_logs.type := "test";
                      notification_logs.method := "test";
                      notification_logs.status := "sent";
                      notification_logs.sent_at := clock w |} ])
    by (intros w0 Hc Hl; cbn; rewrite Hc, Hl; reflexivity).
  destruct (alerts.email_enabled a) eqn:He;
    destruct (alerts.sms_enabled a) eqn:Hs;
    destruct (JS.truthy (JS.of_option (users.phone u))) eqn:Hp;
    cbn [andb fst snd app].
  all: split; [reflexivity|].
  all: split;
    [cbn [insert_notification_log with_notification_logs outbox];
     rewrite ?outbox_after_attempt, <- ?app_assoc;
     first [reflexivity | symmetry; apply app_nil_r]|].
  all: split; [cbn [map via]; rewrite ?method_outcome_of; reflexivity|].
  all: split;
    [cbn; split; intros H;
     repeat match goal with
            | H : _ \/ _ |- _ => destruct H
            | H : False |- _ => contradiction
            end;
     try discriminate; try reflexivity; auto|].
  all: split;
    [cbn; split;
     [ intros H;
       repeat match goal with
              | H : _ \/ _ |- _ => destruct H
              | H : False |- _ => contradiction
              end;
       try discriminate;
       split; first [reflexivity | apply Hphone; reflexivity]
     | intros [H1 H2]; try discriminate;
       try (apply Hphone in H2; discriminate); auto ]|].
  all: split;
    [apply Hlog;
     repeat rewrite (proj1 (proj2 (after_attempt_frame _ _ _ _)));
     repeat rewrite (proj2 (proj2 (after_attempt_frame _ _ _ _)));
     reflexivity|].
  all: intros ty id Hty; apply recent_notifications_ignores_test;
    try exact Hty;
    repeat rewrite (proj1 (proj2 (after_attempt_frame _ _ _ _)));
    repeat rewrite (proj2 (proj2 (after_attempt_frame _ _ _ _)));
    reflexivity.
Qed.

Lemma test_alert_honours_channel_flags_witness :
  let w := Scenario.world [Scenario.example_com] []
             [Scenario.rule 1 7 "domain_expiry" 30] [] in
  exists results,
    fst (post_alert_test Scenario.refused_env 1 1 w) = Normal (200, results)
    /\ map method results = ["email"].
Proof.
  intros w.
  destruct (test_alert_honours_channel_flags Scenario.refused_env 1 1 w
              (Scenario.rule 1 7 "domain_expiry" 30) Scenario.example_com
              Scenario.alice [] eq_refl eq_refl)
    as [results [attempts [Hrun _]]].
  exists results. split; [exact Hrun|].
  cbn in Hrun. injection Hrun as <-. reflexivity.
Defined.

(* ===================================================================== *)
(** * Creating and replacing alert rules *)
(* ===================================================================== *)

Lemma select_pass {A} (q : World -> A) (w : World) (rest : list bool) :
  db_faults w = false :: rest ->
  select q w = (Normal (q (with_db_faults rest w)), with_db_faults rest w).
Proof. intros H. unfold select, pool_query. rewrite H. reflexivity. Qed.

(** A query either throws or runs; before it runs, only the fault oracle
    has moved. *)
Lemma pool_query_cases {A} (q : World -> A * World) (w : World) :
  exists w1,
    tbl_alerts w1 = tbl_alerts w /\ tbl_domains w1 = tbl_domains w
    /\ (pool_query q w = (Throw (JS.StorageError "query failed"), w1)
        \/ pool_query q w = (Normal (fst (q w1)), snd (q w1))).
Proof.
  unfold pool_query. destruct (db_faults w) as [| [|] rest].
  - exists w. split; [reflexivity|]. split; [reflexivity|].
    right. destruct (q w). reflexivity.
  - exists (with_db_faults rest w). split; [reflexivity|]. split; [reflexivity|].
    left. reflexivity.
  - exists (with_db_faults rest w). split; [reflexivity|]. split; [reflexivity|].
    right. destruct (q (with_db_faults rest w)). reflexivity.
Qed.

Lemma owned_domains_tables (domain_id user_id : Z) (w w1 : World) :
  tbl_domains w1 = tbl_domains w ->
  owned_domains domain_id user_id w1 = owned_domains domain_id user_id w.
Proof. intros H. unfold owned_domains. rewrite H. reflexivity. Qed.

Lemma existing_alerts_tables (domain_id : Z) (ty : string) (user_id : Z)
  (w w1 : World) :
  tbl_alerts w1 = tbl_alerts w ->
  existing_alerts domain_id ty user_id w1 = existing_alerts domain_id ty user_id w.
Proof. intros H. unfold existing_alerts. rewrite H. reflexivity. Qed.

Lemma NoDup_snoc {A} (l : list A) (x : A) :
  NoDup l -> ~ In x l -> NoDup (l ++ [x]).
Proof.
  induction l as [| y rest IH]; simpl; intros Hnd Hin.
  - constructor; [intros [] | constructor].
  - inversion Hnd as [| y' rest' Hy Hrest]; subst.
    constructor.
    + intros H. apply in_app_or in H. destruct H as [H | [H | []]].
      * contradiction.
      * subst. apply Hin. left. reflexivity.
    + apply IH; [exact Hrest | intros H; apply Hin; right; exact H].
Qed.

Lemma existing_alerts_empty (domain_id : Z) (ty : string) (user_id : Z) (w : World) :
  existing_alerts domain_id ty user_id w = [] ->
  ~ In (user_id, domain_id, ty) (map rule_key (tbl_alerts w)).
Proof.
  intros Hempty Hin. apply in_map_iff in Hin. destruct Hin as [a [Hkey Hin]].
  unfold rule_key in Hkey. injection Hkey as Hu Hd Ht.
  assert (Hin' : In a (existing_alerts domain_id ty user_id w)).
  { unfold existing_alerts. apply filter_In. split; [exact Hin|].
    rewrite Hu, Hd, Ht, !Z.eqb_refl, String.eqb_refl. reflexivity. }
  rewrite Hempty in Hin'. contradiction.
Qed.

(** What a request to create a rule comes to. *)
Lemma post_alert_outcome (new_id user_id : Z) (body : AlertBody) (w : World) :
  let run := post_alert new_id user_id body w in
  (fst run = Normal 201
   /\ is_alert_type (type body) = true
   /\ owned_domains (domainId body) user_id w <> []
   /\ existing_alerts (domainId body) (type body) user_id w = []
   /\ exists days,
        valid_daysBeforeExpiry (daysBeforeExpiry body) = Some days
        /\ tbl_alerts (snd run)
           = tbl_alerts w ++
               [ {| alerts.id := new_id; alerts.user_id := user_id;
                    alerts.domain_id := domainId body;
                    alerts.type := type body;
                    alerts.email_enabled := default_to true (emailEnabled body);
                    alerts.sms_enabled := default_to false (smsEnabled body);
                    alerts.days_before_expiry := days |} ])
  \/ ((fst run = Normal 400 \/ fst run = Normal 404 \/ fst run = Normal 500)
      /\ tbl_alerts (snd run) = tbl_alerts w).
Proof.
  intros run.
  assert (Hrun : run = post_alert new_id user_id body w) by reflexivity.
  clearbody run. unfold post_alert in Hrun.
  destruct (is_alert_type (type body)) eqn:Hty;
    [| subst run; right; split; [left; reflexivity | reflexivity]].
  destruct (valid_daysBeforeExpiry (daysBeforeExpiry body)) as [days |] eqn:Hdays;
    [| subst run; right; split; [left; reflexivity | reflexivity]].
  unfold try_catch, select, execute in Hrun. unfold bind at 1 in Hrun.
  destruct (pool_query_cases
              (fun w0 => (owned_domains (domainId body) user_id w0, w0)) w)
    as [w1 [Ha1 [Hd1 [H1 | H1]]]]; rewrite H1 in Hrun; cbn [fst snd] in Hrun.
  { subst run. right. split; [right; right; reflexivity | exact Ha1]. }
  rewrite (owned_domains_tables _ _ w w1 Hd1) in Hrun.
  destruct (owned_domains (domainId body) user_id w) as [| d0 ds] eqn:Hown.
  { subst run. right. split; [right; left; reflexivity | exact Ha1]. }
  cbn [List.length Nat.eqb] in Hrun. unfold bind at 1 in Hrun.
  destruct (pool_query_cases
              (fun w0 => (existing_alerts (domainId body) (type body) user_id w0, w0))
              w1)
    as [w2 [Ha2 [Hd2 [H2 | H2]]]]; rewrite H2 in Hrun; cbn [fst snd] in Hrun.
  { subst run. right. split; [right; right; reflexivity | cbn; congruence]. }
  rewrite (existing_alerts_tables _ _ _ w1 w2 Ha2),
    (existing_alerts_tables _ _ _ w w1 Ha1) in Hrun.
  destruct (existing_alerts (domainId body) (type body) user_id w)
    as [| a0 rest0] eqn:Hex.
  2:{ subst run. right. split; [left; reflexivity | cbn; congruence]. }
  cbn [nonempty List.length Nat.eqb negb] in Hrun. unfold bind at 1 in Hrun.
  match type of Hrun with
  | context [pool_query ?q w2] =>
      destruct (pool_query_cases q w2) as [w3 [Ha3 [Hd3 [H3 | H3]]]];
      rewrite H3 in Hrun
  end; cbn [fst snd] in Hrun.
  { subst run. right. split; [right; right; reflexivity | cbn; congruence]. }
  subst run. left. split; [reflexivity|]. split; [reflexivity|].
  split; [discriminate|]. split; [reflexivity|].
  exists days. split; [reflexivity|].
  cbn. rewrite Ha3, Ha2, Ha1. reflexivity.
Qed.

(** X16.  Creating a rule through [POST /alerts] never throws and keeps
    the rules unique per (user, domain, type): the answer is 201, 400, 404
    or 500; on 201 exactly one rule was appended, of a valid type, on a
    domain the caller owns, with no rule of that key before it, with the
    defaults email on and SMS off and a threshold between 1 and 90
    (30 when absent); on any other answer the rules are unchanged. *)
Theorem post_alert_keeps_rules_unique :
  forall (new_id user_id : Z) (body : AlertBody) (w : World),
    let run := post_alert new_id user_id body w in
    (fst run = Normal 201 \/ fst run = Normal 400
     \/ fst run = Normal 404 \/ fst run = Normal 500)
    /\ (unique_rules w -> unique_rules (snd run))
    /\ (fst run <> Normal 201 -> tbl_alerts (snd run) = tbl_alerts w)
    /\ (fst run = Normal 201 ->
        exists a,
          tbl_alerts (snd run) = tbl_alerts w ++ [a]
          /\ rule_key a = (user_id, domainId body, type body)
          /\ In (alerts.type a) alert_types
          /\ 1 <= alerts.days_before_expiry a <= 90
          /\ alerts.days_before_expiry a = default_to 30 (daysBeforeExpiry body)
          /\ alerts.email_enabled a = default_to true (emailEnabled body)
          /\ alerts.sms_enabled a = default_to false (smsEnabled body)
          /\ owned_domains (domainId body) user_id w <> []).
Proof.
  intros new_id user_id body w run.
  destruct (post_alert_outcome new_id user_id body w)
    as [[H201 [Hty [Hown [Hex [days [Hdays Htbl]]]]]] | [Hst Htbl]];
    fold run in H201 || fold run in Hst; fold run in Htbl.
  - split; [left; exact H201|].
    split.
    { unfold unique_rules. rewrite Htbl, map_app. intros Hnd.
      apply NoDup_snoc; [exact Hnd|].
      apply existing_alerts_empty. exact Hex. }
    split; [intros H; contradiction|].
    intros _. eexists. split; [exact Htbl|].
    split; [reflexivity|].
    split.
    { cbn. unfold is_alert_type in Hty. apply existsb_exists in Hty.
      destruct Hty as [t [Hin Heq]]. apply String.eqb_eq in Heq. subst t.
      exact Hin. }
    assert (Hrange : 1 <= days <= 90
                     /\ days = default_to 30 (daysBeforeExpiry body)).
    { unfold valid_daysBeforeExpiry in Hdays.
      destruct (daysBeforeExpiry body) as [n |]; cbn.
      - destruct ((1 <=? n) && (n <=? 90)) eqn:Hr; [| discriminate].
        injection Hdays as <-. apply andb_true_iff in Hr.
        rewrite !Z.leb_le in Hr. split; [exact Hr | reflexivity].
      - injection Hdays as <-. split; [lia | reflexivity]. }
    cbn. repeat split; try apply Hrange; exact Hown.
  - split; [destruct Hst as [H | [H | H]]; auto|].
    split; [unfold unique_rules; rewrite Htbl; auto|].
    split; [intros _; exact Htbl|].
    intros H. destruct Hst as [H' | [H' | H']]; rewrite H' in H; discriminate.
Qed.

Lemma post_alert_keeps_rules_unique_witness :
  let w := Scenario.world [Scenario.example_com] []
             [Scenario.rule 1 7 "domain_expiry" 30] [] in
  let body := {| domainId := 7; type := "domain_expiry"; emailEnabled := None;
                 smsEnabled := None; daysBeforeExpiry := Some 60 |} in
  unique_rules (snd (post_alert 2 1 body w))
  /\ fst (post_alert 2 1 body w) = Normal 400.
Proof.
  intros w body.
  destruct (post_alert_keeps_rules_unique 2 1 body w) as [_ [H _]].
  split; [| reflexivity].
  apply H. unfold unique_rules. simpl.
  constructor; [intros [] | constructor].
Defined.

Lemma bulk_inserts_run (ids : nat -> Z) (user_id domain_id : Z)
  (rules : list BulkAlert) (k : nat) (w : World) :
  db_faults w = [] ->
  exists w',
    bulk_inserts ids k user_id domain_id rules w = (Normal tt, w')
    /\ tbl_alerts w' = tbl_alerts w ++ bulk_rows ids k user_id domain_id rules
    /\ db_faults w' = [].
Proof.
  revert k w. induction rules as [| a rest IH]; intros k w Hfaults; simpl.
  - exists w. split; [reflexivity|]. split; [symmetry; apply app_nil_r | exact Hfaults].
  - unfold bind. rewrite (execute_no_fault _ w Hfaults).
    destruct (IH (S k) (insert_alert (bulk_row (ids k) user_id domain_id a) w)
                Hfaults) as [w' [Hrun [Htbl Hf]]].
    exists w'. split; [exact Hrun|]. split; [| exact Hf].
    rewrite Htbl. cbn. rewrite <- app_assoc. reflexivity.
Qed.

Lemma bulk_rows_content (ids : nat -> Z) (user_id domain_id : Z)
  (rules : list BulkAlert) (k : nat) :
  map to_bulk (bulk_rows ids k user_id domain_id rules) = rules
  /\ filter (rule_of domain_id user_id) (bulk_rows ids k user_id domain_id rules)
     = bulk_rows ids k user_id domain_id rules
  /\ filter (fun a => negb (rule_of domain_id user_id a))
            (bulk_rows ids k user_id domain_id rules) = [].
Proof.
  revert k. induction rules as [| a rest IH]; intros k; simpl.
  - repeat split.
  - destruct (IH (S k)) as [H1 [H2 H3]].
    unfold rule_of in *. cbn. rewrite !Z.eqb_refl. cbn.
    rewrite H1, H2, H3. destruct a. repeat split.
Qed.

Lemma filter_negb_filter {A} (f : A -> bool) (l : list A) :
  filter f (filter (fun x => negb (f x)) l) = []
  /\ filter (fun x => negb (f x)) (filter (fun x => negb (f x)) l)
     = filter (fun x => negb (f x)) l.
Proof.
  induction l as [| x rest [IH1 IH2]]; simpl; [split; reflexivity|].
  destruct (f x) eqn:Hx; simpl; [split; assumption|].
  rewrite Hx. simpl. rewrite IH1, IH2. split; reflexivity.
Qed.

(** X17.  The bulk route replaces the caller's rules of a domain: with no
    storage fault pending, a valid array and a domain the caller owns, it
    answers 200; reading the caller's rules of that domain back gives the
    rows made from the array, element by element and in its order, and
    every other rule is as before.  For a domain the caller does not own
    it answers 404 and changes no rule; for an array with an unknown type
    or a threshold outside 1..90 it answers 400 and does not touch the
    storage. *)
Theorem put_alerts_bulk_replaces_rules :
  forall (ids : nat -> Z) (user_id domain_id : Z) (rules : list BulkAlert)
         (w : World),
    db_faults w = [] ->
    let run := put_alerts_bulk ids user_id domain_id rules w in
    (forallb valid_bulk_alert rules = true ->
     owned_domains domain_id user_id w <> [] ->
     fst run = Normal 200
     /\ map to_bulk (filter (rule_of domain_id user_id) (tbl_alerts (snd run)))
        = rules
     /\ filter (rule_of domain_id user_id) (tbl_alerts (snd run))
        = bulk_rows ids 0 user_id domain_id rules
     /\ filter (fun a => negb (rule_of domain_id user_id a)) (tbl_alerts (snd run))
        = filter (fun a => negb (rule_of domain_id user_id a)) (tbl_alerts w))
    /\ (forallb valid_bulk_alert rules = true ->
        owned_domains domain_id user_id w = [] ->
        run = (Normal 404, w))
    /\ (forallb valid_bulk_alert rules = false -> run = (Normal 400, w)).
Proof.
  intros ids user_id domain_id rules w Hfaults run.
  assert (Hrun : run = put_alerts_bulk ids user_id domain_id rules w) by reflexivity.
  clearbody run. unfold put_alerts_bulk, try_catch in Hrun.
  split; [| split].
  - intros Hvalid Hown. rewrite Hvalid in Hrun.
    unfold bind at 1 in Hrun. rewrite (select_no_fault _ w Hfaults) in Hrun.
    destruct (owned_domains domain_id user_id w) as [| d0 ds]; [congruence|].
    cbn [List.length Nat.eqb] in Hrun.
    unfold bind at 1 in Hrun. rewrite (execute_no_fault _ w Hfaults) in Hrun.
    unfold bind at 1 in Hrun.
    destruct (bulk_inserts_run ids user_id domain_id rules 0
                (delete_alerts_of domain_id user_id w) Hfaults)
      as [w' [Hins [Htbl _]]].
    rewrite Hins in Hrun. cbn in Hrun. subst run. cbn [fst snd].
    change (tbl_alerts (delete_alerts_of domain_id user_id w))
      with (filter (fun a => negb (rule_of domain_id user_id a)) (tbl_alerts w))
      in Htbl.
    destruct (bulk_rows_content ids user_id domain_id rules 0) as [Hc [Hin Hout]].
    destruct (filter_negb_filter (rule_of domain_id user_id) (tbl_alerts w))
      as [Hf1 Hf2].
    split; [reflexivity|].
    rewrite Htbl, !filter_app, Hf1, Hf2, Hin, Hout, app_nil_r. cbn [app].
    repeat split. exact Hc.
  - intros Hvalid Hown. rewrite Hvalid in Hrun.
    unfold bind at 1 in Hrun. rewrite (select_no_fault _ w Hfaults), Hown in Hrun.
    exact Hrun.
  - intros Hinvalid. rewrite Hinvalid in Hrun. exact Hrun.
Qed.

Lemma put_alerts_bulk_replaces_rules_witness :
  let w := Scenario.world [Scenario.example_com] []
             [Scenario.rule 1 7 "domain_expiry" 30;
              Scenario.rule 2 8 "domain_expiry" 30] [] in
  let rules := [ {| bulk_type := "ssl_expiry"; bulk_emailEnabled := true;
                    bulk_smsEnabled := true; bulk_daysBeforeExpiry := 14 |} ] in
  map to_bulk (filter (rule_of 7 1)
                 (tbl_alerts (snd (put_alerts_bulk (fun k => 10 + Z.of_nat k) 1 7
                                     rules w))))
  = rules.
Proof.
  intros w rules.
  destruct (put_alerts_bulk_replaces_rules (fun k => 10 + Z.of_nat k) 1 7 rules w
              eq_refl) as [H _].
  apply H; [reflexivity | discriminate].
Defined.

(** X18.  The bulk route is not atomic: when the check of the domain and
    the delete succeed and the first insert fails, it answers 500 and the
    caller's rules of that domain are gone, none of the new ones being in
    place; the rules of other domains and users are as before. *)
Theorem put_alerts_bulk_is_not_atomic :
  forall (ids : nat -> Z) (user_id domain_id : Z) (a : BulkAlert)
         (more : list BulkAlert) (w : World) (rest : list bool),
    db_faults w = false :: false :: true :: rest ->
    forallb valid_bulk_alert (a :: more) = true ->
    owned_domains domain_id user_id w <> [] ->
    let run := put_alerts_bulk ids user_id domain_id (a :: more) w in
    fst run = Normal 500
    /\ tbl_alerts (snd run)
       = filter (fun r => negb (rule_of domain_id user_id r)) (tbl_alerts w)
    /\ filter (rule_of domain_id user_id) (tbl_alerts (snd run)) = [].
Proof.
  intros ids user_id domain_id a more w rest Hfaults Hvalid Hown run.
  assert (Htbl : fst run = Normal 500
                 /\ tbl_alerts (snd run)
                    = filter (fun r => negb (rule_of domain_id user_id r))
                        (tbl_alerts w)).
  { assert (Hrun : run = put_alerts_bulk ids user_id domain_id (a :: more) w)
      by reflexivity.
    clearbody run. unfold put_alerts_bulk, try_catch in Hrun.
    rewrite Hvalid in Hrun.
    unfold bind at 1 in Hrun. rewrite (select_pass _ w _ Hfaults) in Hrun.
    change (owned_domains domain_id user_id
              (with_db_faults (false :: true :: rest) w))
      with (owned_domains domain_id user_id w) in Hrun.
    destruct (owned_domains domain_id user_id w) as [| d0 ds]; [congruence|].
    cbn [List.length Nat.eqb] in Hrun.
    unfold bind at 1 in Hrun. unfold execute at 1, pool_query at 1 in Hrun.
    cbn in Hrun. subst run. split; reflexivity. }
  destruct Htbl as [Hst Htbl]. split; [exact Hst|]. split; [exact Htbl|].
  rewrite Htbl. apply (filter_negb_filter (rule_of domain_id user_id)).
Qed.

Lemma put_alerts_bulk_is_not_atomic_witness :
  let w := Scenario.world [Scenario.example_com] []
             [Scenario.rule 1 7 "domain_expiry" 30] [false; false; true] in
  let a := {| bulk_type := "ssl_expiry"; bulk_emailEnabled := true;
              bulk_smsEnabled := true; bulk_daysBeforeExpiry := 14 |} in
  tbl_alerts (snd (put_alerts_bulk (fun k => 10 + Z.of_nat k) 1 7 [a] w)) = [].
Proof.
  intros w a.
  destruct (put_alerts_bulk_is_not_atomic (fun k => 10 + Z.of_nat k) 1 7 a [] w []
              eq_refl eq_refl) as [_ [H _]].
  - discriminate.
  - rewrite H. reflexivity.
Defined.

(* ===================================================================== *)
(** * The list view, the schedule and the stored certificate *)
(* ===================================================================== *)

Lemma domain_status_cases (expiry today : Z) :
  (expiry <= today /\ domain_status expiry today = "expired")
  \/ (today < expiry <= today + 30 /\ domain_status expiry today = "expiring_soon")
  \/ (today + 30 < expiry /\ domain_status expiry today = "active").
Proof.
  unfold domain_status.
  destruct (Z.leb_spec expiry today) as [H1 | H1].
  - left. split; [exact H1 | reflexivity].
  - destruct (Z.leb_spec expiry (today + 30)) as [H2 | H2].
    + right; left. split; [lia | reflexivity].
    + right; right. split; [lia | reflexivity].
Qed.

(** X19.  The status column of the list view agrees with the engine at
    the same clock: a domain is shown 'expired' exactly when its
    daysUntilExpiry is at most 0 (the daily sweep would mark it expired),
    'expiring_soon' exactly when 0 < daysUntilExpiry <= 30, which is the
    window of the alert-matching sweep, and 'active' exactly when more
    than 30 days remain. *)
Theorem list_view_status_agrees_with_engine :
  forall (expiry_date : Z) (w : World),
    let today := utcDate (clock w) in
    let days := daysUntilExpiry (dateToMs expiry_date) (clock w) in
    (domain_status expiry_date today = "expired" <-> days <= 0)
    /\ (domain_status expiry_date today = "expiring_soon" <-> 0 < days <= 30)
    /\ (domain_status expiry_date today = "active" <-> 30 < days)
    /\ (domain_status expiry_date today = "expiring_soon"
        <-> in_sql_window expiry_date w = true).
Proof.
  intros expiry_date w today days.
  assert (Hdays : days = expiry_date - today) by apply daysUntilExpiry_date.
  assert (Hwin : in_sql_window expiry_date w = true
                 <-> today < expiry_date <= today + 30).
  { unfold in_sql_window. fold today.
    rewrite andb_true_iff, Z.leb_le, Z.gtb_lt. lia. }
  rewrite Hwin, Hdays.
  destruct (domain_status_cases expiry_date today)
    as [[Hc He] | [[Hc He] | [Hc He]]]; rewrite He;
    repeat split; intros; try discriminate; try lia; try reflexivity.
Qed.

(** X20.  The certificate column of the list view, computed on the stored
    day, is never more optimistic than the prober at the same clock: a
    certificate the prober reports 'expired' is shown 'ssl_expired', one
    shown 'ssl_valid' is reported 'valid', and one shown
    'ssl_expiring_soon' is not reported 'expired'. *)
Theorem list_view_certificate_status_is_cautious :
  forall (env : Env) (domain : string) (now : Z) (info : SSLInfo),
    checkSSLCertificate env domain now = Resolved (Some info) ->
    let shown := ssl_health_status (Some (validUntil info)) (utcDate now) in
    (status info = "expired" -> shown = "ssl_expired")
    /\ (shown = "ssl_valid" -> status info = "valid")
    /\ (shown = "ssl_expiring_soon" -> status info <> "expired")
    /\ shown <> "no_ssl".
Proof.
  intros env domain now info Hprobe shown.
  destruct (checkSSLCertificate_resolved env domain now info Hprobe)
    as [vu [Hday Hstatus]].
  pose proof MS_PER_DAY_pos as Hp.
  assert (Hvu : utcDate vu * MS_PER_DAY <= vu < (utcDate vu + 1) * MS_PER_DAY).
  { unfold utcDate.
    pose proof (Z.div_mod vu MS_PER_DAY ltac:(lia)).
    pose proof (Z.mod_pos_bound vu MS_PER_DAY Hp). nia. }
  assert (Hnow : utcDate now * MS_PER_DAY <= now < (utcDate now + 1) * MS_PER_DAY).
  { unfold utcDate.
    pose proof (Z.div_mod now MS_PER_DAY ltac:(lia)).
    pose proof (Z.mod_pos_bound now MS_PER_DAY Hp). nia. }
  subst shown. unfold ssl_health_status. rewrite Hday, Hstatus.
  destruct (https_status_cases vu now) as [[Hc He] | [[Hc He] | [Hc He]]];
    rewrite He; unfold THIRTY_DAYS_MS in Hc;
    change (1000 * 60 * 60 * 24) with MS_PER_DAY in *;
    destruct (Z.leb_spec (utcDate vu) (utcDate now)) as [H1 | H1];
    try destruct (Z.leb_spec (utcDate vu) (utcDate now + 30)) as [H2 | H2];
    repeat split; intros; try discriminate; try reflexivity;
    exfalso; unfold MS_PER_DAY in *; nia.
Qed.

Lemma list_view_certificate_status_is_cautious_witness :
  ssl_health_status (Some 120) (utcDate Scenario.eight_oclock) <> "no_ssl".
Proof.
  apply (list_view_certificate_status_is_cautious Scenario.serving_env
           "example.com" Scenario.eight_oclock
           {| issuer := "R3"; validFrom := 20; validUntil := 120;
              status := "expiring_soon" |} eq_refl).
Defined.

(** X21.  The four cron expressions: per UTC day the daily job fires once,
    the SSL job 4 times, the uptime job 48 times and the alert job 24
    times.  Whenever the daily job or the SSL job fires, the alert job
    fires in the same minute, and whenever the alert job fires so does the
    uptime job; the daily job and the SSL job never fire together. *)
Theorem schedule_of_the_four_jobs :
  (firings_per_day dailyMonitoringJob = 1
   /\ firings_per_day sslMonitoringJob = 4
   /\ firings_per_day uptimeMonitoringJob = 48
   /\ firings_per_day alertCheckingJob = 24)%nat
  /\ forall hour minute,
       (job_fires dailyMonitoringJob hour minute = true ->
        job_fires alertCheckingJob hour minute = true)
       /\ (job_fires sslMonitoringJob hour minute = true ->
           job_fires alertCheckingJob hour minute = true)
       /\ (job_fires alertCheckingJob hour minute = true ->
           job_fires uptimeMonitoringJob hour minute = true)
       /\ (job_fires dailyMonitoringJob hour minute = true ->
           job_fires sslMonitoringJob hour minute = false).
Proof.
  split; [repeat split; vm_compute; reflexivity|].
  intros hour minute. unfold job_fires. cbn.
  rewrite !andb_true_r.
  repeat split.
  - intros H. apply andb_true_iff in H. apply H.
  - intros H. apply andb_true_iff in H. apply H.
  - intros H. apply Z.eqb_eq in H. subst minute. reflexivity.
  - intros H. apply andb_true_iff in H. destruct H as [Hm Hh].
    apply Z.eqb_eq in Hh. subst hour. rewrite Hm. reflexivity.
Qed.

Lemma schedule_of_the_four_jobs_witness :
  job_fires alertCheckingJob 9 0 = true.
Proof.
  destruct schedule_of_the_four_jobs as [_ H].
  apply (H 9 0). reflexivity.
Defined.

Lemma ssl_body_certificates (env : Env) (d : domains.row)
  (s : ssl_certificates.row) (u : users.row) (info : SSLInfo) (w : World) :
  db_faults w = [] ->
  checkSSLCertificate env (domains.domain_name d) (clock w) = Resolved (Some info) ->
  tbl_ssl_certificates (exec (ssl_body env (d, s, u)) w)
  = tbl_ssl_certificates
      (update_ssl_certificate info (ssl_certificates.domain_id s) w).
Proof.
  intros Hfaults Hprobe. unfold exec, ssl_body.
  unfold bind at 1. unfold now at 1.
  unfold bind at 1. rewrite Hprobe. unfold await, ret at 1.
  unfold bind at 1. rewrite (execute_no_fault _ w Hfaults).
  match goal with
  | |- tbl_ssl_certificates (snd (?m ?w1)) = _ =>
      assert (Hkeep : keeps tbl_ssl_certificates m) by repeat keeps_step;
      apply (Hkeep w1)
  end.
Qed.

(** X22.  The SSL sweep stores what it probed.  With no storage fault
    pending, after the iteration of a domain whose probe resolved with a
    certificate, every stored certificate of that domain carries the
    probe's issuer, its two days and its status, and the clock as
    last-checked time, whether or not an alert fired; the certificates of
    other domains are untouched and no row is added or removed.  When the
    probe returns null or rejects, no certificate row changes at all. *)
Theorem ssl_sweep_stores_the_probe :
  forall (env : Env) (d : domains.row) (s : ssl_certificates.row)
         (u : users.row) (w : World),
    db_faults w = [] ->
    let w' := exec (ssl_body env (d, s, u)) w in
    (forall info,
        checkSSLCertificate env (domains.domain_name d) (clock w)
          = Resolved (Some info) ->
        (forall c, In c (tbl_ssl_certificates w') ->
                   ssl_certificates.domain_id c = ssl_certificates.domain_id s ->
                   ssl_certificates.issuer c = Some (issuer info)
                   /\ ssl_certificates.valid_from c = Some (validFrom info)
                   /\ ssl_certificates.valid_until c = Some (validUntil info)
                   /\ ssl_certificates.status c = status info
                   /\ ssl_certificates.last_checked c = clock w)
        /\ filter (fun c => negb (ssl_certificates.domain_id c
                                  =? ssl_certificates.domain_id s))
                  (tbl_ssl_certificates w')
           = filter (fun c => negb (ssl_certificates.domain_id c
                                    =? ssl_certificates.domain_id s))
                    (tbl_ssl_certificates w)
        /\ map ssl_certificates.id (tbl_ssl_certificates w')
           = map ssl_certificates.id (tbl_ssl_certificates w))
    /\ ((forall info, checkSSLCertificate env (domains.domain_name d) (clock w)
                      <> Resolved (Some info)) ->
        tbl_ssl_certificates w' = tbl_ssl_certificates w).
Proof.
  intros env d s u w Hfaults w'. split.
  - intros info Hprobe. subst w'.
    rewrite (ssl_body_certificates env d s u info w Hfaults Hprobe).
    unfold update_ssl_certificate. cbn [tbl_ssl_certificates with_ssl_certificates].
    split; [| split].
    + intros c Hin Hid. apply in_map_iff in Hin. destruct Hin as [c0 [Heq Hin0]].
      destruct (ssl_certificates.domain_id c0 =? ssl_certificates.domain_id s)
        eqn:Hc0; subst c.
      * cbn. repeat split.
      * apply Z.eqb_neq in Hc0. contradiction.
    + induction (tbl_ssl_certificates w) as [| c0 rest IH]; [reflexivity|].
      cbn [map filter].
      destruct (ssl_certificates.domain_id c0 =? ssl_certificates.domain_id s)
        eqn:Hc0.
      * cbn [ssl_certificates.domain_id]. rewrite Hc0. cbn [negb]. exact IH.
      * rewrite Hc0. cbn [negb]. rewrite IH. reflexivity.
    + rewrite map_map. apply map_ext. intros c0.
      destruct (ssl_certificates.domain_id c0 =? ssl_certificates.domain_id s);
        reflexivity.
  - intros Hnone. subst w'. unfold exec, ssl_body.
    unfold bind at 1. unfold now at 1. unfold bind at 1.
    destruct (checkSSLCertificate env (domains.domain_name d) (clock w))
      as [[info |] | e] eqn:Hprobe.
    + exfalso. apply (Hnone info). reflexivity.
    + reflexivity.
    + reflexivity.
Qed.

Lemma ssl_sweep_stores_the_probe_witness :
  let w := Scenario.world [Scenario.example_com] [Scenario.example_com_cert] [] [] in
  map ssl_certificates.id
      (tbl_ssl_certificates
         (exec (ssl_body Scenario.serving_env
                  (Scenario.example_com, Scenario.example_com_cert, Scenario.alice))
               w))
  = [3].
Proof.
  intros w.
  destruct (ssl_sweep_stores_the_probe Scenario.serving_env Scenario.example_com
              Scenario.example_com_cert Scenario.alice w eq_refl) as [H _].
  destruct (H {| issuer := "R3"; validFrom := 20; validUntil := 120;
                 status := "expiring_soon" |} eq_refl) as [_ [_ Hids]].
  rewrite Hids. reflexivity.
Defined.
